(** * Claude AI Agent backend: rate limiter, chat bookkeeping, retention sweep

    A shallow embedding of [agent/scripts/main_fastapi_app.py] and of the
    tables of [agent/scripts/database_models.py], with the properties of
    the specification stated over it.

    Conventions.
    - A Python [float] is the rational it stands for ([Q]); the arithmetic
      on floats rounds its exact result to the nearest binary64 value, ties
      to even ([round_binary64]). The exponent range of binary64 is not
      modelled: no overflow to infinity, no subnormal numbers.
    - A [datetime] is a whole number of microseconds ([Z]).
    - Python [int] is unbounded: [Z].
    - The module-level dict [rate_limit_storage] is a [gmap] from the client
      address to its list of timestamps. *)

From Stdlib Require Import ZArith QArith Qround Qabs Qpower Lqa Lia List Bool Sorted
  Permutation.
From stdpp Require Import gmap strings list.
Import ListNotations.

Close Scope Q_scope.
Local Open Scope Z_scope.

(** ** Python helpers *)

(** [int(x)] on a float: truncation toward zero. *)
Definition py_int (q : Q) : Z := Z.quot (Qnum q) (Zpos (Qden q)).

(** [min(l)]: the first least element; [None] stands for the [ValueError]
    raised on an empty sequence. *)
Definition py_min (l : list Q) : option Q :=
  match l with
  | [] => None
  | x :: r => Some (fold_left (fun m y => if Qlt_le_dec y m then y else m) r x)
  end.

(** ** Floats

    Binary64 arithmetic: 53 significant bits, round to nearest, ties to
    even. *)

(** The nearest integer, the even one of two equally near. *)
Definition round_half_even (y : Q) : Z :=
  let f := Qfloor y in
  match (y - inject_Z f ?= 1 # 2)%Q with
  | Lt => f
  | Gt => f + 1
  | Eq => if Z.even f then f else f + 1
  end.

(** [floor(log2(x))] for a positive [x]. *)
Definition floor_log2 (x : Q) : Z :=
  let k := Z.log2 (Zpos (Qden x)) + 1 in
  Z.log2 (Qfloor (x * 2 ^ k)%Q) - k.

(** The exponent of the last of the 53 bits of [x]. *)
Definition exponent (x : Q) : Z := floor_log2 (Qabs x) - 52.

Definition round_binary64 (x : Q) : Q :=
  if Qeq_bool x 0 then 0%Q
  else Qred (inject_Z (round_half_even (x / 2 ^ exponent x)%Q) * 2 ^ exponent x)%Q.

(** [a - b] and [a * b] on floats, [float(z)] and [a / b] on ints. *)
Definition float_sub (a b : Q) : Q := round_binary64 (a - b)%Q.
Definition float_mul (a b : Q) : Q := round_binary64 (a * b)%Q.
Definition float_of_int (z : Z) : Q := round_binary64 (inject_Z z).
Definition int_truediv (a b : Z) : Q := round_binary64 (inject_Z a / inject_Z b)%Q.

#[global] Arguments round_binary64 : simpl never.
#[global] Arguments float_sub : simpl never.
#[global] Arguments float_mul : simpl never.
#[global] Arguments float_of_int : simpl never.
#[global] Arguments int_truediv : simpl never.

(** ** Rate limiter ([rate_limit_check], lines 175-205) *)

Module RateLimiter.

(** What a call does to its caller: falls through (the request goes on),
    raises [HTTPException(429)] with a [retry_after], or dies on the
    [ValueError] of [min([])]. *)
Inductive outcome : Type :=
| Permit
| Deny (retry_after : Z)
| ValueError.

#[global] Instance outcome_eq_dec : EqDecision outcome.
Proof. solve_decision. Defined.

Section Limiter.

(** [RATE_LIMIT_REQUESTS] and [RATE_LIMIT_WINDOW], read through [int(...)]. *)
Variable requests_per_window : Z.
Variable window_seconds : Z.

(** [timestamp > cutoff_time] *)
Definition newer (cutoff_time : Q) (timestamp : Q) : bool :=
  if Qlt_le_dec cutoff_time timestamp then true else false.

(** [cutoff_time = current_time - window_seconds], line 185. *)
Definition cutoff (current_time : Q) : Q :=
  float_sub current_time (float_of_int window_seconds).

(** The list comprehension of lines 187-190, or [[]] for a new client. *)
Definition clean (client_ip : string) (current_time : Q)
    (rate_limit_storage : gmap string (list Q)) : list Q :=
  let cutoff_time := cutoff current_time in
  match rate_limit_storage !! client_ip with
  | Some l => List.filter (newer cutoff_time) l
  | None => []
  end.

Definition rate_limit_check (client_ip : string) (current_time : Q)
    (rate_limit_storage : gmap string (list Q))
  : outcome * gmap string (list Q) :=
  let kept := clean client_ip current_time rate_limit_storage in
  let storage1 := <[client_ip := kept]> rate_limit_storage in
  if requests_per_window <=? Z.of_nat (length kept) then
    match py_min kept with
    | Some oldest =>
        (Deny (py_int (float_sub (float_of_int window_seconds)
                         (float_sub current_time oldest))),
         storage1)
    | None => (ValueError, storage1)
    end
  else
    (Permit, <[client_ip := kept ++ [current_time]]> storage1).

(** A run of the process: the calls in arrival order, each with the
    client address and the clock reading. *)
Fixpoint run (calls : list (string * Q))
    (rate_limit_storage : gmap string (list Q))
  : list outcome * gmap string (list Q) :=
  match calls with
  | [] => ([], rate_limit_storage)
  | (client_ip, current_time) :: rest =>
      let '(o, s1) := rate_limit_check client_ip current_time rate_limit_storage in
      let '(os, s2) := run rest s1 in
      (o :: os, s2)
  end.

(** The clock readings of the permitted calls of one client. *)
Fixpoint permits (client_ip : string) (calls : list (string * Q))
    (rate_limit_storage : gmap string (list Q)) : list Q :=
  match calls with
  | [] => []
  | (c, current_time) :: rest =>
      let '(o, s1) := rate_limit_check c current_time rate_limit_storage in
      let tail := permits client_ip rest s1 in
      match o with
      | Permit => if decide (c = client_ip) then current_time :: tail else tail
      | _ => tail
      end
  end.

(** How many readings of [l] lie in the trailing window that ends at [t],
    measured as the code measures it, in floats:
    [float(t - window_seconds) < x <= t]. *)
Definition in_trailing_window (t : Q) (x : Q) : bool :=
  (if Qlt_le_dec (float_sub t (float_of_int window_seconds)) x then true else false)
  && Qle_bool x t.

Definition count_in_window (t : Q) (l : list Q) : nat :=
  length (List.filter (in_trailing_window t) l).

(** The clock never runs backwards over the calls. *)
Fixpoint clock_monotone (last : Q) (calls : list (string * Q)) : Prop :=
  match calls with
  | [] => True
  | (_, t) :: rest => (last <= t)%Q /\ clock_monotone t rest
  end.

(** The stored sequence of a client, [[]] when the key is absent. *)
Definition stored (s : gmap string (list Q)) (k : string) : list Q :=
  default [] (s !! k).

(** What the stored sequence of client [k] has to do with the readings [P]
    permitted to it so far, when no later call reads a clock below [T]. *)
Definition window_inv (s : gmap string (list Q)) (k : string)
    (P : list Q) (T : Q) : Prop :=
  List.filter (newer (cutoff T)) P = List.filter (newer (cutoff T)) (stored s k)
  /\ (forall x, In x P -> (x <= T)%Q)
  /\ (forall t, Z.of_nat (count_in_window t P) <= requests_per_window).

End Limiter.

End RateLimiter.

(** ** Tables ([database_models.py])

    The autoincrement [id] and the columns no modelled code writes or reads
    ([conversation_context], [metadata], [network_bytes_*], ...) are left
    out. A [Float] column is a rational, a [JSON] column a [json] value. *)

Definition datetime := Z.

(** [timedelta(days=d)] in microseconds. *)
Definition timedelta_days (d : Z) : Z := d * 86400 * 1000000.

(** A JSON column: empty, or the text [json.dumps({key: value})]. *)
Inductive json : Type :=
| JNull
| JDumps (key : string) (value : option string).

Module ConversationLog.
Record t : Type := mk {
  session_id : string;
  timestamp : datetime;
  user_message : string;
  assistant_response : string;
  tokens_used : Z;
  processing_time : Q;
  model_used : string;
  success : bool;
  error_message : option string;
  error_type : option string;
  user_ip : option string;
  user_agent : option string;
  created_at : datetime
}.
End ConversationLog.

Module UserSession.
Record t : Type := mk {
  session_uuid : string;
  created_at : datetime;
  last_activity : datetime;
  session_status : string;
  total_messages : Z;
  total_tokens : Z;
  total_processing_time : Q;
  user_ip : option string;
  user_agent : option string;
  browser_info : json;
  device_info : json;
  session_metadata : json;
  total_errors : Z;
  avg_response_time : Q;
  peak_tokens_per_hour : Z;
  conversation_topics : json;
  session_rating : option Z;
  updated_at : datetime
}.
End UserSession.

Module SystemMetrics.
Record t : Type := mk {
  timestamp : datetime;
  cpu_percent : Q;
  memory_percent : Q;
  memory_used_mb : Q;
  memory_total_mb : Q;
  disk_percent : Q;
  disk_used_gb : Q;
  disk_total_gb : Q;
  uptime_seconds : Z;
  health_status : string
}.
End SystemMetrics.

Module ErrorLog.
(** Modelled from the spec: the [ErrorLog] table is imported by the
    application but its declaration is not in the sources at hand; the
    specification gives it as "error occurrences with timestamp". *)
Record t : Type := mk {
  timestamp : datetime;
  occurrence : string
}.
End ErrorLog.

(** The CHECK constraints of [conversation_logs] ([database_models.py],
    lines 74-75). *)
Definition conversation_log_checks (c : ConversationLog.t) : bool :=
  (0 <=? ConversationLog.tokens_used c)
  && Qle_bool 0 (ConversationLog.processing_time c).

(** The CHECK constraints of [user_sessions] ([database_models.py], lines
    114-118). *)
Definition user_session_checks (s : UserSession.t) : bool :=
  (0 <=? UserSession.total_messages s)
  && (0 <=? UserSession.total_tokens s)
  && (0 <=? UserSession.total_errors s)
  && match UserSession.session_rating s with
     | None => true
     | Some rating => (1 <=? rating) && (rating <=? 5)
     end.

(** The committed content of the four tables, rows in insertion order. *)
Record database : Type := mk_database {
  conversation_logs : list ConversationLog.t;
  user_sessions : list UserSession.t;
  system_metrics : list SystemMetrics.t;
  error_logs : list ErrorLog.t
}.

Definition empty_database : database := mk_database [] [] [] [].

(** ** Exceptions, the session's unit of work, and the world *)

Inductive http_detail : Type :=
| DetailRateLimit (max_requests : Z) (retry_after : Z)
| DetailError (error : string) (error_type : string) (retry_after : option Z)
| DetailText (text : string).

Inductive exn : Type :=
| HTTPException (status_code : Z) (detail : http_detail)
| RateLimitError (msg : string)        (* anthropic.RateLimitError *)
| APIError (msg : string)              (* any other anthropic.APIError *)
| Exception (msg : string).            (* anything else, storage errors included *)

(** [str(e)] for the exceptions the handlers print. *)
Definition str (e : exn) : string :=
  match e with
  | HTTPException _ _ => ""%string
  | RateLimitError m | APIError m | Exception m => m
  end.

(** A change a SQLAlchemy session holds until [commit]. *)
Inductive pending_op : Type :=
| AddConversation (c : ConversationLog.t)
| AddSession (s : UserSession.t)
| TouchSession (session_uuid : string) (last_activity : datetime)
    (total_messages : Z) (flushed_at : datetime)
| AddMetrics (m : SystemMetrics.t)
| DeleteMetricsBefore (cutoff_date : datetime)
| DeleteErrorsBefore (cutoff_date : datetime).

Inductive role : Type := user | assistant.

(** An entry of [messages]: [{"role": ..., "content": ...}]. *)
Record prompt_message : Type := mk_message { msg_role : role; content : string }.

Record provider_call : Type := mk_call {
  call_model : string;
  call_max_tokens : Z;
  call_messages : list prompt_message;
  call_system : string
}.

Inductive log_line : Type :=
| LogInfo (text : string) (values : list Z)
| LogWarning (text : string) (cause : string)
| LogError (text : string) (cause : string).

(** The dict built by [get_client_info]. *)
Record client_info : Type := mk_client_info {
  ip : string;
  ci_user_agent : string;
  referer : string
}.

(** What [background_tasks.add_task] queues. *)
Inductive task : Type :=
| LogConversationTask (session_id user_message : string)
    (assistant_response : option string) (tokens_used : Z)
    (processing_time : Q) (model_used : string) (success : bool)
    (error_message error_type : option string)
    (info : option client_info)
| UpdateSessionStatsTask (session_id : string) (info : client_info).

(** Everything the program mutates. [faults] is an oracle for the storage
    engine: each round trip (a query, a bulk delete, a commit) takes the
    next entry, and [Some msg] makes it raise; an exhausted oracle means no
    more failures. *)
Record world : Type := mk_world {
  rate_limit_storage : gmap string (list Q);
  db : database;
  pending : list pending_op;
  logger : list log_line;
  background_tasks : list task;
  sent : list provider_call;
  faults : list (option string)
}.

Inductive result (A : Type) : Type :=
| Ok (a : A)
| Raise (e : exn).
Arguments Ok {A} a.
Arguments Raise {A} e.

(** State and exceptions: a Python statement sequence. *)
Definition M (A : Type) : Type := world -> result A * world.

Definition ret {A} (a : A) : M A := fun w => (Ok a, w).

Definition bind {A B} (m : M A) (f : A -> M B) : M B :=
  fun w => match m w with
           | (Ok a, w') => f a w'
           | (Raise e, w') => (Raise e, w')
           end.

Definition raise {A} (e : exn) : M A := fun w => (Raise e, w).

(** [try: body  except <those [handler] answers [Some] for>: ...] *)
Definition try_except {A} (body : M A) (handler : exn -> option (M A)) : M A :=
  fun w => match body w with
           | (Ok a, w') => (Ok a, w')
           | (Raise e, w') =>
               match handler e with
               | Some h => h w'
               | None => (Raise e, w')
               end
           end.

#[global] Instance M_ret : MRet M := @ret.
#[global] Instance M_bind : MBind M := fun A B f m => bind m f.

Definition get : M world := fun w => (Ok w, w).
Definition modify (f : world -> world) : M unit := fun w => (Ok tt, f w).

Definition set_rate_limit_storage s (w : world) : world :=
  mk_world s (db w) (pending w) (logger w) (background_tasks w) (sent w) (faults w).
Definition set_db d (w : world) : world :=
  mk_world (rate_limit_storage w) d (pending w) (logger w) (background_tasks w) (sent w) (faults w).
Definition set_pending p (w : world) : world :=
  mk_world (rate_limit_storage w) (db w) p (logger w) (background_tasks w) (sent w) (faults w).
Definition set_logger l (w : world) : world :=
  mk_world (rate_limit_storage w) (db w) (pending w) l (background_tasks w) (sent w) (faults w).
Definition set_background_tasks t (w : world) : world :=
  mk_world (rate_limit_storage w) (db w) (pending w) (logger w) t (sent w) (faults w).
Definition set_sent c (w : world) : world :=
  mk_world (rate_limit_storage w) (db w) (pending w) (logger w) (background_tasks w) c (faults w).
Definition set_faults f (w : world) : world :=
  mk_world (rate_limit_storage w) (db w) (pending w) (logger w) (background_tasks w) (sent w) f.

(** One round trip to the storage engine. *)
Definition round_trip : M unit :=
  fun w => match faults w with
           | Some msg :: rest => (Raise (Exception msg), set_faults rest w)
           | _ => (Ok tt, set_faults (tail (faults w)) w)
           end.

Definition logger_log (l : log_line) : M unit :=
  modify (fun w => set_logger (logger w ++ [l]) w).

(** ** The storage session *)

Definition touch (session_uuid : string) (last_activity : datetime)
    (total_messages : Z) (flushed_at : datetime) (s : UserSession.t)
  : UserSession.t :=
  UserSession.mk (UserSession.session_uuid s) (UserSession.created_at s)
    last_activity (UserSession.session_status s) total_messages
    (UserSession.total_tokens s) (UserSession.total_processing_time s)
    (UserSession.user_ip s) (UserSession.user_agent s)
    (UserSession.browser_info s) (UserSession.device_info s)
    (UserSession.session_metadata s) (UserSession.total_errors s)
    (UserSession.avg_response_time s) (UserSession.peak_tokens_per_hour s)
    (UserSession.conversation_topics s) (UserSession.session_rating s)
    flushed_at.

(** The UPDATE of the row [.first()] had loaded: the first row of that
    [session_uuid]. [updated_at] follows through its [onupdate]. *)
Fixpoint update_first (session_uuid : string) (f : UserSession.t -> UserSession.t)
    (rows : list UserSession.t) : list UserSession.t :=
  match rows with
  | [] => []
  | s :: rest =>
      if String.eqb (UserSession.session_uuid s) session_uuid
      then f s :: rest
      else s :: update_first session_uuid f rest
  end.

Definition apply_op (d : database) (o : pending_op) : database :=
  match o with
  | AddConversation c =>
      mk_database (conversation_logs d ++ [c]) (user_sessions d)
        (system_metrics d) (error_logs d)
  | AddSession s =>
      mk_database (conversation_logs d) (user_sessions d ++ [s])
        (system_metrics d) (error_logs d)
  | TouchSession u la tm fl =>
      mk_database (conversation_logs d)
        (update_first u (touch u la tm fl) (user_sessions d))
        (system_metrics d) (error_logs d)
  | AddMetrics m =>
      mk_database (conversation_logs d) (user_sessions d)
        (system_metrics d ++ [m]) (error_logs d)
  | DeleteMetricsBefore cutoff_date =>
      mk_database (conversation_logs d) (user_sessions d)
        (List.filter (fun m => negb (SystemMetrics.timestamp m <? cutoff_date))
           (system_metrics d))
        (error_logs d)
  | DeleteErrorsBefore cutoff_date =>
      mk_database (conversation_logs d) (user_sessions d) (system_metrics d)
        (List.filter (fun e => negb (ErrorLog.timestamp e <? cutoff_date))
           (error_logs d))
  end.

(** What the engine verifies of a change when it is flushed: the CHECK
    constraints of the table on a row inserted. The UPDATE of a session row
    writes a stored counter plus one and re-checks nothing else; the
    declaration of [system_metrics] stops before its constraints. *)
Definition accepted (o : pending_op) : bool :=
  match o with
  | AddConversation c => conversation_log_checks c
  | AddSession s => user_session_checks s
  | _ => true
  end.

(** [db.add(...)], or an attribute write on a loaded row. *)
Definition db_add (o : pending_op) : M unit :=
  modify (fun w => set_pending (pending w ++ [o]) w).

(** [db.commit()]: a round trip; the pending changes reach the tables, all
    of them or, when the engine rejects one ([IntegrityError]), none. *)
Definition db_commit : M unit :=
  round_trip;;
  w ← get;
  if forallb accepted (pending w)
  then modify (fun w => set_pending []
                          (set_db (fold_left apply_op (pending w) (db w)) w))
  else raise (Exception "CHECK constraint failed").

(** [db.rollback()] *)
Definition db_rollback : M unit := modify (set_pending []).

(** [db = SessionLocal()] ... the session object lives as long as the body. *)
Definition with_session {A} (body : M A) : M A :=
  fun w => let '(r, w') := body (set_pending [] w) in (r, set_pending (pending w) w').

(** [ORDER BY timestamp DESC], as SQLite answers it by walking the index on
    [timestamp] backwards: of rows of equal timestamp the one inserted last
    comes first. [insert_desc c l] places a row [c] that precedes the rows
    of [l] in the table. *)
Fixpoint insert_desc (c : ConversationLog.t) (l : list ConversationLog.t)
  : list ConversationLog.t :=
  match l with
  | [] => [c]
  | x :: r =>
      if ConversationLog.timestamp x <? ConversationLog.timestamp c
      then c :: x :: r
      else x :: insert_desc c r
  end.

Definition order_by_timestamp_desc (l : list ConversationLog.t)
  : list ConversationLog.t :=
  fold_right insert_desc [] l.

(** [LIMIT n]; SQLite reads a negative limit as no limit. *)
Definition sql_limit {A} (n : Z) (l : list A) : list A :=
  if n <? 0 then l else firstn (Z.to_nat n) l.

(** [ConversationLog.session_id == session_id, ConversationLog.success == True] *)
Definition successful_of (session_id : string) (c : ConversationLog.t) : bool :=
  String.eqb (ConversationLog.session_id c) session_id && ConversationLog.success c.

Definition select_history (session_id : string) (n : Z) (d : database)
  : list ConversationLog.t :=
  sql_limit n
    (order_by_timestamp_desc
       (List.filter (successful_of session_id) (conversation_logs d))).

Definition query_history (session_id : string) (n : Z) : M (list ConversationLog.t) :=
  round_trip;;
  w ← get;
  ret (select_history session_id n (db w)).

(** [db.query(UserSession).filter(UserSession.session_uuid == session_id).first()] *)
Definition select_session (session_id : string) (d : database) : option UserSession.t :=
  List.find (fun s => String.eqb (UserSession.session_uuid s) session_id)
    (user_sessions d).

Definition query_session (session_id : string) : M (option UserSession.t) :=
  round_trip;;
  w ← get;
  ret (select_session session_id (db w)).

(** ** The application ([main_fastapi_app.py]) *)

Record ChatRequest : Type := mk_request {
  message : string;
  session_id : option string;
  model : string;
  max_tokens : Z
}.

Record ChatResponse : Type := mk_response {
  success : bool;
  response : option string;
  resp_session_id : string;
  tokens_used : Z;
  processing_time : Q;
  model_used : string;
  error : option string;
  error_type : option string
}.

Record SessionInfo : Type := mk_session_info {
  si_session_id : string;
  si_created_at : datetime;
  si_last_activity : datetime;
  si_total_messages : Z;
  si_total_tokens : Z;
  si_avg_response_time : Q
}.

(** A block of [response.content]; only a text block has [.text]. *)
Inductive content_block : Type :=
| TextBlock (text : string)
| OtherBlock.

Record provider_response : Type := mk_provider_response {
  resp_content : list content_block;
  input_tokens : Z;
  output_tokens : Z
}.

(** The request as the transport hands it over. *)
Record http_request : Type := mk_http_request {
  client_host : string;
  header_user_agent : option string;
  header_referer : option string
}.

(** What one exchange reads from outside the program: the configuration,
    the clocks, the fresh UUID and the provider's answer to a call. *)
Record environment : Type := mk_environment {
  RATE_LIMIT_REQUESTS : Z;
  RATE_LIMIT_WINDOW : Z;
  time_at_rate_limit : Q;
  time_at_start : Q;
  time_at_end : Q;
  utcnow : datetime;
  uuid4 : string;
  anthropic_client : provider_call -> result provider_response
}.

Definition system_prompt : string :=
  "You are Claude, a helpful AI assistant created by Anthropic. You are running on a private server deployment. Be helpful, harmless, and honest in your responses.".

Definition rate_limit_check (env : environment) (request : http_request) : M unit :=
  fun w =>
    match RateLimiter.rate_limit_check (RATE_LIMIT_REQUESTS env) (RATE_LIMIT_WINDOW env)
            (client_host request) (time_at_rate_limit env) (rate_limit_storage w) with
    | (RateLimiter.Permit, s) => (Ok tt, set_rate_limit_storage s w)
    | (RateLimiter.Deny retry_after, s) =>
        (Raise (HTTPException 429 (DetailRateLimit (RATE_LIMIT_REQUESTS env) retry_after)),
         set_rate_limit_storage s w)
    | (RateLimiter.ValueError, s) =>
        (Raise (Exception "min() arg is an empty sequence"), set_rate_limit_storage s w)
    end.

Definition get_client_info (request : http_request) : client_info :=
  mk_client_info (client_host request)
    (default "Unknown"%string (header_user_agent request))
    (default ""%string (header_referer request)).

(** The row built at lines 230-242, with the column defaults filled in as
    the INSERT does ([timestamp] and [created_at] from [utcnow]). *)
Definition conversation_row (now : datetime) (session_id user_message : string)
    (assistant_response : option string) (tokens_used : Z) (processing_time : Q)
    (model_used : string) (success : bool) (error_message error_type : option string)
    (info : option client_info) : ConversationLog.t :=
  ConversationLog.mk session_id now user_message
    (default ""%string assistant_response)
    tokens_used processing_time model_used success error_message error_type
    (ip <$> info) (ci_user_agent <$> info) now.

Definition log_conversation (now : datetime) (session_id user_message : string)
    (assistant_response : option string) (tokens_used : Z) (processing_time : Q)
    (model_used : string) (success : bool) (error_message error_type : option string)
    (info : option client_info) : M unit :=
  try_except
    (let conversation :=
       conversation_row now session_id user_message assistant_response tokens_used
         processing_time model_used success error_message error_type info in
     db_add (AddConversation conversation);;
     db_commit)
    (fun e => Some (logger_log (LogError "Failed to log conversation" (str e));;
                    db_rollback)).

(** The row built at lines 254-260, with the column defaults filled in as
    the INSERT does: the counters at their zeros, the three dates from
    [utcnow]. *)
Definition new_session (now : datetime) (session_id : string) (info : client_info)
  : UserSession.t :=
  UserSession.mk session_id now now "active" 0 0 0%Q
    (Some (ip info)) (Some (ci_user_agent info))
    (JDumps "user_agent" (Some (ci_user_agent info)))
    (JDumps "ip" (Some (ip info)))
    JNull 0 0%Q 0 JNull None now.

(** The two branches of lines 253-264. *)
Definition session_change (now : datetime) (session_id : string) (info : client_info)
    (session : option UserSession.t) : pending_op :=
  match session with
  | None => AddSession (new_session now session_id info)
  | Some s => TouchSession session_id now (UserSession.total_messages s + 1) now
  end.

Definition update_session_stats (now : datetime) (session_id : string)
    (info : client_info) : M unit :=
  try_except
    (session ← query_session session_id;
     db_add (session_change now session_id info session);;
     db_commit)
    (fun e => Some (logger_log (LogError "Failed to update session stats" (str e));;
                    db_rollback)).

Definition add_task (t : task) : M unit :=
  modify (fun w => set_background_tasks (background_tasks w ++ [t]) w).

(** Lines 362-369. *)
Definition build_messages (recent_conversations : list ConversationLog.t)
    (current : string) : list prompt_message :=
  flat_map (fun conv => [mk_message user (ConversationLog.user_message conv);
                         mk_message assistant (ConversationLog.assistant_response conv)])
    (rev recent_conversations)
  ++ [mk_message user current].

Definition messages_create (env : environment) (c : provider_call)
  : M provider_response :=
  fun w => (anthropic_client env c, set_sent (sent w ++ [c]) w).

(** What the three handlers of lines 383-410 raise and log, by the class of
    the exception caught. *)
Definition provider_failure (e : exn) : exn * log_line :=
  match e with
  | RateLimitError m =>
      (HTTPException 429
         (DetailError "API rate limit exceeded. Please try again later."
            "api_rate_limit" (Some 60)),
       LogWarning "Anthropic rate limit" m)
  | APIError m =>
      (HTTPException 503
         (DetailError "AI service temporarily unavailable. Please try again."
            "api_error" None),
       LogError "Anthropic API error" m)
  | _ =>
      (HTTPException 500
         (DetailError "Internal server error occurred." "general_error" None),
       LogError "Unexpected Claude API error" (str e))
  end.

(** The call to the provider inside its [try], lines 372-410. *)
Definition call_claude (env : environment) (request : ChatRequest)
    (messages : list prompt_message) : M (string * Z) :=
  try_except
    (response ← messages_create env
       (mk_call (model request) (max_tokens request) messages system_prompt);
     assistant_response ←
       match resp_content response with
       | [] => ret ""%string
       | TextBlock text :: _ => ret text
       | OtherBlock :: _ => raise (Exception "object has no attribute 'text'")
       end;
     ret (assistant_response, input_tokens response + output_tokens response))
    (fun e =>
       Some (logger_log (snd (provider_failure e));;
             raise (fst (provider_failure e)))).

(** The body of the outer [try], lines 356-430. *)
Definition chat_body (env : environment) (request : ChatRequest)
    (session_id : string) (info : client_info) : M ChatResponse :=
  recent_conversations ← query_history session_id 10;
  let messages := build_messages recent_conversations (message request) in
  answer ← call_claude env request messages;
  let '(assistant_response, tokens_used) := answer in
  let processing_time := float_sub (time_at_end env) (time_at_start env) in
  add_task (LogConversationTask session_id (message request) (Some assistant_response)
              tokens_used processing_time (model request) true None None (Some info));;
  add_task (UpdateSessionStatsTask session_id info);;
  ret (mk_response true (Some assistant_response) session_id tokens_used
         processing_time (model request) None None).

(** The handler [except Exception as e] of the outer [try], lines 435-457. *)
Definition chat_failed (env : environment) (request : ChatRequest)
    (session_id : string) (info : client_info) (e : exn) : M ChatResponse :=
  let processing_time := float_sub (time_at_end env) (time_at_start env) in
  let error_msg := str e in
  logger_log (LogError "Chat endpoint error" error_msg);;
  add_task (LogConversationTask session_id (message request) None 0
              processing_time (model request) false (Some error_msg)
              (Some "general_error"%string) (Some info));;
  ret (mk_response false None session_id 0 processing_time
         (model request) (Some "An unexpected error occurred"%string)
         (Some "general_error"%string)).

(** [request.session_id or str(uuid.uuid4())] *)
Definition session_id_of (env : environment) (request : ChatRequest) : string :=
  match session_id request with
  | Some s => if String.eqb s "" then uuid4 env else s
  | None => uuid4 env
  end.

(** [POST /chat], lines 337-457. *)
Definition chat_with_claude (env : environment) (request : ChatRequest)
    (http : http_request) : M ChatResponse :=
  rate_limit_check env http;;
  let session_id := session_id_of env request in
  let info := get_client_info http in
  try_except
    (chat_body env request session_id info)
    (fun e =>
       match e with
       | HTTPException _ _ => Some (raise e)
       | _ => Some (chat_failed env request session_id info e)
       end).

Definition run_task (now : datetime) (t : task) : M unit :=
  match t with
  | LogConversationTask sid um ar tu pt mu ok em et info =>
      log_conversation now sid um ar tu pt mu ok em et info
  | UpdateSessionStatsTask sid info => update_session_stats now sid info
  end.

(** The queued tasks, in queueing order; a task that raises ends the run. *)
Fixpoint run_tasks (now : datetime) (ts : list task) : M unit :=
  match ts with
  | [] => ret tt
  | t :: rest => run_task now t;; run_tasks now rest
  end.

(** What the transport answers. *)
Inductive http_response : Type :=
| Response200 (body : ChatResponse)
| JSONResponse (status_code : Z) (detail : http_detail).

(** [POST /chat] as the framework drives it: a session and a task queue per
    request, the handler, the exception handlers of lines 598-618, and the
    queued tasks once the handler has returned its response. *)
Definition post_chat (env : environment) (request : ChatRequest)
    (http : http_request) (w : world) : http_response * world :=
  let '(answer, w1) :=
    match chat_with_claude env request http
            (set_background_tasks [] (set_pending [] w)) with
    | (Ok body, w') =>
        (Response200 body, snd (run_tasks (utcnow env) (background_tasks w') w'))
    | (Raise (HTTPException status_code detail), w') =>
        (JSONResponse status_code detail,
         set_logger (logger w' ++ [LogWarning "HTTP" ""]) w')
    | (Raise e, w') =>
        (JSONResponse 500 (DetailError "Internal server error" "general_error" None),
         set_logger (logger w' ++ [LogError "Unhandled exception" (str e)]) w')
    end in
  (answer, set_background_tasks (background_tasks w) (set_pending (pending w) w1)).

(** [GET /sessions/{session_id}], lines 459-473. *)
Definition get_session_info (session_id : string) : M SessionInfo :=
  session ← query_session session_id;
  match session with
  | None => raise (HTTPException 404 (DetailText "Session not found"))
  | Some s =>
      ret (mk_session_info (UserSession.session_uuid s) (UserSession.created_at s)
             (UserSession.last_activity s) (UserSession.total_messages s)
             (UserSession.total_tokens s) (UserSession.avg_response_time s))
  end.

(** An entry of the ["conversations"] list. *)
Record history_entry : Type := mk_history_entry {
  he_timestamp : datetime;
  he_user_message : string;
  he_assistant_response : string;
  he_tokens_used : Z;
  he_processing_time : Q
}.

(** [GET /sessions/{session_id}/history], lines 475-499: the pair stands for
    the dict with keys ["session_id"] and ["conversations"]. *)
Definition get_conversation_history (session_id : string) (limit : Z)
  : M (string * list history_entry) :=
  conversations ← query_history session_id limit;
  ret (session_id,
       map (fun conv =>
              mk_history_entry (ConversationLog.timestamp conv)
                (ConversationLog.user_message conv)
                (ConversationLog.assistant_response conv)
                (ConversationLog.tokens_used conv)
                (ConversationLog.processing_time conv))
         (rev conversations)).

(** What [psutil] reports at one sampling. *)
Record sample : Type := mk_sample {
  s_cpu_percent : Q;
  s_memory_percent : Q;
  s_memory_used : Q;
  s_memory_total : Q;
  s_disk_percent : Q;
  s_disk_used : Q;
  s_disk_total : Q
}.

(** One turn of the loop of [collect_system_metrics], lines 546-566 (the
    sleep aside). [uptime] is [int((utcnow() - app_start_time).total_seconds())]. *)
Definition collect_system_metrics (app_start_time now : datetime) (p : sample) : M unit :=
  try_except
    (with_session
       (db_add (AddMetrics
                  (SystemMetrics.mk now (s_cpu_percent p) (s_memory_percent p)
                     (s_memory_used p / 1024 / 1024)%Q
                     (s_memory_total p / 1024 / 1024)%Q
                     (s_disk_percent p)
                     (s_disk_used p / 1024 / 1024 / 1024)%Q
                     (s_disk_total p / 1024 / 1024 / 1024)%Q
                     (Z.quot (now - app_start_time) 1000000)
                     "healthy"));;
        db_commit))
    (fun e => Some (logger_log (LogError "Failed to collect system metrics" (str e)))).

(** [db.query(T).filter(T.timestamp < cutoff_date).delete()]: a round trip
    that answers the number of rows matched; the rows go at [commit]. *)
Definition delete_metrics_before (cutoff_date : datetime) : M Z :=
  round_trip;;
  w ← get;
  db_add (DeleteMetricsBefore cutoff_date);;
  ret (Z.of_nat (length (List.filter
                           (fun m => SystemMetrics.timestamp m <? cutoff_date)
                           (system_metrics (db w))))).

Definition delete_errors_before (cutoff_date : datetime) : M Z :=
  round_trip;;
  w ← get;
  db_add (DeleteErrorsBefore cutoff_date);;
  ret (Z.of_nat (length (List.filter
                           (fun e => ErrorLog.timestamp e <? cutoff_date)
                           (error_logs (db w))))).

(** One turn of the loop of [cleanup_old_data], lines 573-595 (the sleep
    aside). *)
Definition cleanup_old_data (now : datetime) : M unit :=
  try_except
    (with_session
       (let cutoff_date := now - timedelta_days 30 in
        old_metrics ← delete_metrics_before cutoff_date;
        old_errors ← delete_errors_before cutoff_date;
        db_commit;;
        logger_log (LogInfo "Cleaned up old metrics and old error logs"
                      [old_metrics; old_errors])))
    (fun e => Some (logger_log (LogError "Failed to cleanup old data" (str e)))).

(** ** The system as a whole: what can change the world *)

Inductive operation : Type :=
| OpChat (env : environment) (request : ChatRequest) (http : http_request)
| OpSessionInfo (session_id : string)
| OpHistory (session_id : string) (limit : Z)
| OpCollectMetrics (app_start_time now : datetime) (p : sample)
| OpCleanup (now : datetime)
| OpStorageFaults (oracle : list (option string)).

Definition step (w : world) (o : operation) : world :=
  match o with
  | OpChat env request http => snd (post_chat env request http w)
  | OpSessionInfo session_id => snd (with_session (get_session_info session_id) w)
  | OpHistory session_id limit =>
      snd (with_session (get_conversation_history session_id limit) w)
  | OpCollectMetrics t0 now p => snd (collect_system_metrics t0 now p w)
  | OpCleanup now => snd (cleanup_old_data now w)
  | OpStorageFaults oracle => set_faults oracle w
  end.

Definition initial_world : world :=
  mk_world ∅ empty_database [] [] [] [] [].

(** ** The request validator ([ChatRequest.validate_message], lines 67-71) *)

Section Validation.

(** [str.isspace] on one character. *)
Variable isspace : Ascii.ascii -> bool.

Fixpoint lstrip (s : string) : string :=
  match s with
  | EmptyString => EmptyString
  | String c r => if isspace c then lstrip r else s
  end.

Fixpoint rstrip (s : string) : string :=
  match s with
  | EmptyString => EmptyString
  | String c r =>
      match rstrip r with
      | EmptyString => if isspace c then EmptyString else String c EmptyString
      | r' => String c r'
      end
  end.

(** [v.strip()] *)
Definition strip (v : string) : string := rstrip (lstrip v).

(** The [ValueError] is the [Exception] of the model. *)
Definition validate_message (v : string) : result string :=
  if String.eqb (strip v) "" then
    Raise (Exception "Message cannot be empty or just whitespace")
  else Ok (strip v).

(** Every character of [s] is whitespace. *)
Fixpoint all_space (s : string) : bool :=
  match s with
  | EmptyString => true
  | String c r => isspace c && all_space r
  end.

Fixpoint last_char (s : string) : option Ascii.ascii :=
  match s with
  | EmptyString => None
  | String c EmptyString => Some c
  | String _ r => last_char r
  end.

Definition first_char (s : string) : option Ascii.ascii :=
  match s with
  | EmptyString => None
  | String c _ => Some c
  end.

End Validation.

(** ** Startup, health and statistics (lines 104-147, 299-335, 501-540) *)

Definition api_key_placeholder : string := "your_anthropic_api_key_here".

(** The two long-lived tasks [lifespan] creates. *)
Inductive background_loop : Type :=
| CollectSystemMetricsLoop
| CleanupOldDataLoop.

(** The startup half of [lifespan], lines 107-142. [init_database] is not
    in the sources at hand and is taken by its outcome; [key] is
    [os.getenv('ANTHROPIC_API_KEY')]. The test call has no [system]
    argument: the empty string here. The value returned lists the tasks
    created. *)
Definition lifespan_startup (env : environment) (init_database : result unit)
    (key : option string) : M (list background_loop) :=
  logger_log (LogInfo "Starting Claude AI Agent application..." []);;
  try_except
    (match init_database with
     | Ok _ => logger_log (LogInfo "Database initialized successfully" [])
     | Raise e => raise e
     end)
    (fun e => Some (logger_log (LogError "Database initialization failed" (str e));;
                    raise e));;
  (if match key with
      | None => true
      | Some api_key => String.eqb api_key "" || String.eqb api_key api_key_placeholder
      end
   then logger_log (LogError "Anthropic API key not configured" "");;
        raise (Exception "Anthropic API key not configured")
   else ret tt);;
  try_except
    (messages_create env
       (mk_call "claude-3-sonnet-20240229" 10 [mk_message user "test"] "");;
     logger_log (LogInfo "Anthropic API connection verified" []))
    (fun e => Some (logger_log (LogError "Anthropic API initialization failed" (str e));;
                    raise e));;
  logger_log (LogInfo "Application startup completed" []);;
  ret [CollectSystemMetricsLoop; CleanupOldDataLoop].

Record HealthResponse : Type := mk_health {
  h_status : string;
  h_message : string;
  h_timestamp : datetime;
  h_api_configured : bool;
  h_database_status : string;
  h_cpu_percent : Q;
  h_memory_percent : Q;
  h_disk_percent : Q;
  h_uptime_seconds : Z;
  h_version : string
}.

(** [GET /health], lines 299-335, in a session of its own. [psutil] is the
    outcome of the three readings (cpu, memory, disk). *)
Definition health_check (key : option string) (app_start_time now : datetime)
    (psutil : result (Q * Q * Q)) : M HealthResponse :=
  with_session
    (try_except
       (db_status ← try_except
          (round_trip;; ret "healthy"%string)
          (fun e => Some (ret (String.append "error: " (str e))));
        readings ← match psutil with
                   | Ok m => ret m
                   | Raise e => raise e
                   end;
        let '(cpu, memory, disk) := readings in
        let api_configured :=
          match key with
          | None => false
          | Some k =>
              if String.eqb k "" then false
              else negb (String.eqb k api_key_placeholder)
          end in
        ret (mk_health "healthy" "Claude AI Agent is running normally" now
               api_configured db_status cpu memory disk
               (Z.quot (now - app_start_time) 1000000) "1.0.0"))
       (fun e =>
          Some (logger_log (LogError "Health check failed" (str e));;
                raise (HTTPException 500
                         (DetailText (String.append "Health check failed: " (str e))))))).

(** [ORDER BY SystemMetrics.timestamp DESC]; of rows of equal timestamp the
    one inserted last comes first. *)
Fixpoint insert_metric_desc (m : SystemMetrics.t) (l : list SystemMetrics.t)
  : list SystemMetrics.t :=
  match l with
  | [] => [m]
  | x :: r =>
      if SystemMetrics.timestamp x <? SystemMetrics.timestamp m
      then m :: x :: r
      else x :: insert_metric_desc m r
  end.

Definition order_metrics_desc (l : list SystemMetrics.t) : list SystemMetrics.t :=
  fold_right insert_metric_desc [] l.

(** One query: a round trip, then a reading of the tables. *)
Definition db_query {A} (f : database -> A) : M A :=
  round_trip;;
  w ← get;
  ret (f (db w)).

(** An entry of ["recent_metrics"]. *)
Record metric_entry : Type := mk_metric_entry {
  me_timestamp : datetime;
  me_cpu_percent : Q;
  me_memory_percent : Q;
  me_active_sessions : Z
}.

Record system_stats : Type := mk_stats {
  total_conversations : Z;
  successful_conversations : Z;
  success_rate : Q;
  total_sessions : Z;
  active_sessions_24h : Z;
  recent_metrics : list metric_entry
}.

Section Stats.

(** The [active_sessions] column of a metric row, which the row type above
    leaves out. *)
Variable active_sessions_of : SystemMetrics.t -> Z.

(** [GET /admin/stats], lines 501-540, in a session of its own. *)
Definition get_system_stats (now : datetime) : M system_stats :=
  with_session
    (try_except
       (recent ← db_query (fun d => firstn 24 (order_metrics_desc (system_metrics d)));
        total ← db_query (fun d => Z.of_nat (length (conversation_logs d)));
        successful ← db_query
          (fun d => Z.of_nat (length (List.filter ConversationLog.success
                                        (conversation_logs d))));
        sessions ← db_query (fun d => Z.of_nat (length (user_sessions d)));
        active ← db_query
          (fun d => Z.of_nat
                      (length (List.filter
                                 (fun s => now - 24 * 3600 * 1000000
                                           <=? UserSession.last_activity s)
                                 (user_sessions d))));
        ret (mk_stats total successful
               (float_mul (int_truediv successful (Z.max total 1)) (float_of_int 100))
               sessions active
               (map (fun metric =>
                       mk_metric_entry (SystemMetrics.timestamp metric)
                         (SystemMetrics.cpu_percent metric)
                         (SystemMetrics.memory_percent metric)
                         (active_sessions_of metric))
                  recent)))
       (fun e =>
          Some (logger_log (LogError "Stats endpoint error" (str e));;
                raise (HTTPException 500 (DetailText "Failed to retrieve stats"))))).

End Stats.

(** ** Vocabulary of the statements *)

(** The next round trip to the storage engine goes through. *)
Definition no_fault (w : world) : Prop :=
  match faults w with
  | Some _ :: _ => False
  | _ => True
  end.

(** One of the next [n] round trips fails. *)
Definition meets_fault (n : nat) (w : world) : bool :=
  existsb (fun f => match f with Some _ => true | None => false end)
    (firstn n (faults w)).

(** The round trips a queued task makes, and the change it commits. *)
Definition task_round_trips (t : task) : nat :=
  match t with
  | LogConversationTask _ _ _ _ _ _ _ _ _ _ => 1
  | UpdateSessionStatsTask _ _ => 2
  end.

Definition task_change (now : datetime) (t : task) (d : database) : pending_op :=
  match t with
  | LogConversationTask sid um ar tu pt mu ok em et info =>
      AddConversation (conversation_row now sid um ar tu pt mu ok em et info)
  | UpdateSessionStatsTask sid info =>
      session_change now sid info (select_session sid d)
  end.

(** The call the handler sends for a request, given the committed tables. *)
Definition call_for (env : environment) (request : ChatRequest) (d : database)
  : provider_call :=
  mk_call (model request) (max_tokens request)
    (build_messages (select_history (session_id_of env request) 10 d)
       (message request))
    system_prompt.

(** [a] may stand before [b] in a list ordered newest first, and in one
    ordered oldest first. *)
Definition newest_first (a b : ConversationLog.t) : Prop :=
  ConversationLog.timestamp b <= ConversationLog.timestamp a.

Definition oldest_first (a b : ConversationLog.t) : Prop :=
  ConversationLog.timestamp a <= ConversationLog.timestamp b.

(** Two session rows agree on every column but [last_activity],
    [total_messages] and [updated_at]. *)
Definition same_elsewhere (a b : UserSession.t) : Prop :=
  UserSession.session_uuid a = UserSession.session_uuid b
  /\ UserSession.created_at a = UserSession.created_at b
  /\ UserSession.session_status a = UserSession.session_status b
  /\ UserSession.total_tokens a = UserSession.total_tokens b
  /\ UserSession.total_processing_time a = UserSession.total_processing_time b
  /\ UserSession.user_ip a = UserSession.user_ip b
  /\ UserSession.user_agent a = UserSession.user_agent b
  /\ UserSession.browser_info a = UserSession.browser_info b
  /\ UserSession.device_info a = UserSession.device_info b
  /\ UserSession.session_metadata a = UserSession.session_metadata b
  /\ UserSession.total_errors a = UserSession.total_errors b
  /\ UserSession.avg_response_time a = UserSession.avg_response_time b
  /\ UserSession.peak_tokens_per_hour a = UserSession.peak_tokens_per_hour b
  /\ UserSession.conversation_topics a = UserSession.conversation_topics b
  /\ UserSession.session_rating a = UserSession.session_rating b.

(** The key of a session row with the four aggregates nothing writes. *)
Definition aggregates (s : UserSession.t) : string * (Z * Q * Z * Q) :=
  (UserSession.session_uuid s,
   (UserSession.total_tokens s, UserSession.total_processing_time s,
    UserSession.total_errors s, UserSession.avg_response_time s)).

Definition zero_aggregates (s : UserSession.t) : Prop :=
  snd (aggregates s) = (0, 0%Q, 0, 0%Q).

(** From [d] to [d'] the session rows kept their aggregates, row by row, and
    the rows that came on top have theirs at zero. *)
Definition aggregates_kept (d d' : database) : Prop :=
  exists added,
    map aggregates (user_sessions d')
    = map aggregates (user_sessions d) ++ map aggregates added
    /\ Forall zero_aggregates added.

(** The text line 380 takes from an answer: [""] for no block, the text of
    a first text block; [None] when the first block has no [.text]. *)
Definition response_text (r : provider_response) : option string :=
  match resp_content r with
  | [] => Some ""%string
  | TextBlock text :: _ => Some text
  | OtherBlock :: _ => None
  end.

(** [x] is a binary64 value. *)
Definition is_float (x : Q) : Prop := (round_binary64 x == x)%Q.

(** The session an exchange belongs to: the [session_id] of the request when
    it gives one that is not empty, a fresh UUID otherwise. *)
Definition requested_session (env : environment) (request : ChatRequest)
    (sid : string) : Prop :=
  match session_id request with
  | Some s => if String.eqb s "" then sid = uuid4 env else sid = s
  | None => sid = uuid4 env
  end.

(** The limiter lets the request of [http] through. *)
Definition permitted (env : environment) (http : http_request) (w : world) : Prop :=
  fst (RateLimiter.rate_limit_check (RATE_LIMIT_REQUESTS env) (RATE_LIMIT_WINDOW env)
         (client_host http) (time_at_rate_limit env) (rate_limit_storage w))
  = RateLimiter.Permit.

(** ** Sample inputs *)

Definition sample_http : http_request :=
  mk_http_request "203.0.113.7" (Some "curl/8.0"%string) None.

(** [POST /chat {message: "hi"}], the other fields at their defaults. *)
Definition sample_request : ChatRequest :=
  mk_request "hi" None "claude-3-sonnet-20240229" 1000.

(** An environment whose provider answers every call with [answer]. *)
Definition sample_env (answer : result provider_response) : environment :=
  mk_environment 100 3600 (1000 # 1)%Q (1000 # 1)%Q (2003 # 2)%Q
    1700000000000000 "6f1c1a52-0000-4000-8000-000000000001" (fun _ => answer).

(** The [n]-th exchange of a sample session: the question is the [n]-th
    small letter followed by "?", the answer the [n]-th capital followed by
    "!". *)
Definition sample_exchange (sid : string) (n : nat) (ok : bool) : ConversationLog.t :=
  ConversationLog.mk sid (Z.of_nat n)
    (String (Ascii.ascii_of_nat (96 + n)) "?") (String (Ascii.ascii_of_nat (64 + n)) "!")
    5 (1 # 2)%Q "claude-3-sonnet-20240229" ok
    (if ok then None else Some "timeout"%string)
    (if ok then None else Some "general_error"%string)
    None None (Z.of_nat n).

(** Tables holding twelve successful exchanges of session "s-1", made at
    times 1 to 12, then a failed one of that session and an exchange of
    another session. *)
Definition sample_history : world :=
  mk_world ∅
    (mk_database
       (map (fun n => sample_exchange "s-1" n true) (seq 1 12)
        ++ [sample_exchange "s-1" 13 false; sample_exchange "s-2" 14 true])
       [] [] [])
    [] [] [] [] [].

(** A metric row of the given date, and tables holding one row of 31 days
    ago and one of 29 days ago on day 100. *)
Definition sample_metric (at_ : datetime) : SystemMetrics.t :=
  SystemMetrics.mk at_ (25 # 2)%Q (40 # 1)%Q (2048 # 1)%Q (8192 # 1)%Q
    (55 # 1)%Q (20 # 1)%Q (100 # 1)%Q 3600 "healthy".

Definition sample_day (d : Z) : datetime := timedelta_days d.

Definition sample_tables : world :=
  mk_world ∅
    (mk_database [] []
       [sample_metric (sample_day 100 - timedelta_days 31);
        sample_metric (sample_day 100 - timedelta_days 29)]
       [ErrorLog.mk (sample_day 100 - timedelta_days 31) "timeout"])
    [] [] [] [] [].

(** The API key is set, and is not the placeholder of the sample
    configuration. *)
Definition configured (key : option string) : Prop :=
  exists k, key = Some k /\ k <> ""%string /\ k <> api_key_placeholder.

(** [a] may stand before [b] in a list of metric rows ordered newest first. *)
Definition newest_metric_first (a b : SystemMetrics.t) : Prop :=
  SystemMetrics.timestamp b <= SystemMetrics.timestamp a.

(** * Properties *)

(** ** Python helpers *)

Lemma py_min_least (l : list Q) :
  l <> [] ->
  exists m, py_min l = Some m /\ In m l /\ forall x, In x l -> (m <= x)%Q.
Proof.
  destruct l as [|a r]; [congruence | intros _].
  simpl. eexists; split; [reflexivity |].
  revert a. induction r as [|b r IH]; intros a; simpl.
  - split; [now left |]. intros x [<- | []]. apply Qle_refl.
  - destruct (Qlt_le_dec b a) as [Hlt | Hle].
    + destruct (IH b) as [Hin Hmin]. split.
      * destruct Hin as [<- | Hin]; [right; now left | right; now right].
      * intros x [<- | Hx].
        -- apply Qle_trans with b; [apply Hmin; now left | now apply Qlt_le_weak].
        -- apply Hmin. exact Hx.
    + destruct (IH a) as [Hin Hmin]. split.
      * destruct Hin as [<- | Hin]; [now left | right; now right].
      * intros x [<- | [<- | Hx]].
        -- apply Hmin; now left.
        -- apply Qle_trans with a; [apply Hmin; now left | exact Hle].
        -- apply Hmin; now right.
Qed.

(** ** Floats *)

Section FloatFacts.

Local Open Scope Q_scope.

Lemma pow2_pos (e : Z) : 0 < 2 ^ e.
Proof. apply Qpower_0_lt. reflexivity. Qed.

Lemma pow2_add (a b : Z) : 2 ^ (a + b) == 2 ^ a * 2 ^ b.
Proof. apply Qpower_plus. discriminate. Qed.

Lemma pow2_le (a b : Z) : (a <= b)%Z -> 2 ^ a <= 2 ^ b.
Proof. intros H. apply Qpower_le_compat_l; [exact H | discriminate]. Qed.

Lemma pow2_lt (a b : Z) : (a < b)%Z -> 2 ^ a < 2 ^ b.
Proof. intros H. apply Qpower_lt_compat_l; [exact H | reflexivity]. Qed.

Lemma pow2_lt_inv (a b : Z) : 2 ^ a < 2 ^ b -> (a < b)%Z.
Proof. intros H. apply (Qpower_lt_compat_l_inv 2); [exact H | reflexivity]. Qed.

Lemma pow2_Z (n : Z) : (0 <= n)%Z -> inject_Z (2 ^ n) == 2 ^ n.
Proof. intros H. now rewrite Zpower_Qpower. Qed.

Lemma mul_pow2_cancel (x : Q) (e : Z) : x / 2 ^ e * 2 ^ e == x.
Proof. field. pose proof (pow2_pos e). lra. Qed.

(** *** Rounding to the nearest integer *)

Lemma round_half_even_cases (y : Q) :
  let f := Qfloor y in
  (round_half_even y = f /\ y - inject_Z f <= 1 # 2
   /\ (y - inject_Z f == 1 # 2 -> Z.even f = true))
  \/ (round_half_even y = (f + 1)%Z /\ 1 # 2 <= y - inject_Z f
      /\ (y - inject_Z f == 1 # 2 -> Z.even f = false)).
Proof.
  intros f. unfold round_half_even. fold f.
  destruct (Qcompare_spec (y - inject_Z f) (1 # 2)) as [E | L | G].
  - destruct (Z.even f) eqn:Ev.
    + left. split; [reflexivity | split; [lra | auto]].
    + right. split; [reflexivity | split; [lra | auto]].
  - left. split; [reflexivity | split; [lra | intros E; lra]].
  - right. split; [reflexivity | split; [lra | intros E; lra]].
Qed.

Lemma round_half_even_comp (y y' : Q) :
  y == y' -> round_half_even y = round_half_even y'.
Proof.
  intros E. unfold round_half_even.
  rewrite (Qfloor_comp _ _ E).
  assert (y - inject_Z (Qfloor y') == y' - inject_Z (Qfloor y')) as E' by lra.
  now rewrite (Qcompare_comp _ _ E' _ _ (Qeq_refl (1 # 2))).
Qed.

Lemma round_half_even_Z (k : Z) : round_half_even (inject_Z k) = k.
Proof.
  unfold round_half_even. rewrite Qfloor_Z.
  assert ((inject_Z k - inject_Z k ?= 1 # 2) = Lt) as ->; [| reflexivity].
  apply (proj1 (Qlt_alt _ _)). ring_simplify. reflexivity.
Qed.

Lemma round_half_even_mono (y y' : Q) :
  y <= y' -> (round_half_even y <= round_half_even y')%Z.
Proof.
  intros H.
  pose proof (Qfloor_resp_le _ _ H) as Hf.
  pose proof (Qfloor_le y) as Hl. pose proof (Qlt_floor y) as Hu.
  pose proof (Qfloor_le y') as Hl'. pose proof (Qlt_floor y') as Hu'.
  destruct (round_half_even_cases y) as [(-> & _) | (-> & Hy & Hey)];
    destruct (round_half_even_cases y') as [(-> & Hy' & Hey') | (-> & _)];
    try lia.
  destruct (Z.eq_dec (Qfloor y) (Qfloor y')) as [E | N]; [| lia].
  exfalso. rewrite E in Hy, Hey.
  assert (y' - inject_Z (Qfloor y') == 1 # 2) as E1 by lra.
  assert (y - inject_Z (Qfloor y') == 1 # 2) as E2 by lra.
  specialize (Hey E2). specialize (Hey' E1). congruence.
Qed.

(** *** The exponent *)

Lemma floor_log2_spec (x : Q) :
  0 < x -> 2 ^ floor_log2 x <= x /\ x < 2 ^ (floor_log2 x + 1).
Proof.
  intros Hx. unfold floor_log2.
  set (k := (Z.log2 (Zpos (Qden x)) + 1)%Z).
  assert (Hk : (0 <= k)%Z).
  { unfold k. apply Z.add_nonneg_nonneg; [apply Z.log2_nonneg | discriminate]. }
  set (M := Qfloor (x * 2 ^ k)).
  assert (Hden : inject_Z (Zpos (Qden x)) < 2 ^ k).
  { rewrite <- (pow2_Z k) by exact Hk. rewrite <- Zlt_Qlt.
    subst k. apply Z.log2_spec. lia. }
  assert (H1 : 1 <= x * 2 ^ k).
  { destruct x as [n d]. simpl in Hden.
    assert (0 < n)%Z as Hn by (unfold Qlt in Hx; simpl in Hx; lia).
    assert (1 # d <= n # d) as Hnd by (unfold Qle; simpl; nia).
    assert ((1 # d) * inject_Z (Zpos d) == 1) as Hone
      by (unfold Qeq, Qmult, inject_Z; simpl; lia).
    pose proof (pow2_pos k).
    assert (0 < 1 # d) by reflexivity.
    nra. }
  assert (HM : (1 <= M)%Z).
  { subst M. change 1%Z with (Qfloor 1). now apply Qfloor_resp_le. }
  pose proof (Z.log2_spec M ltac:(lia)) as [HL HU].
  pose proof (Z.log2_nonneg M) as HL0.
  pose proof (Qfloor_le (x * 2 ^ k)) as Hfl. pose proof (Qlt_floor (x * 2 ^ k)) as Hfu.
  fold M in Hfl, Hfu.
  assert (Hlow : 2 ^ Z.log2 M <= x * 2 ^ k).
  { rewrite <- (pow2_Z (Z.log2 M)) by exact HL0. apply Qle_trans with (inject_Z M); [| exact Hfl].
    now rewrite <- Zle_Qle. }
  assert (Hup : x * 2 ^ k < 2 ^ (Z.log2 M + 1)).
  { rewrite <- (pow2_Z (Z.log2 M + 1)) by lia.
    apply Qlt_le_trans with (inject_Z (M + 1)); [exact Hfu |].
    rewrite <- Zle_Qle. change (Z.succ (Z.log2 M)) with (Z.log2 M + 1)%Z in HU. lia. }
  pose proof (pow2_pos k) as Hpk.
  assert (E1 : 2 ^ (Z.log2 M + 1) == 2 ^ (Z.log2 M - k + 1) * 2 ^ k).
  { rewrite <- pow2_add. now replace (Z.log2 M - k + 1 + k)%Z with (Z.log2 M + 1)%Z by lia. }
  assert (E2 : 2 ^ Z.log2 M == 2 ^ (Z.log2 M - k) * 2 ^ k).
  { rewrite <- pow2_add. now replace (Z.log2 M - k + k)%Z with (Z.log2 M) by lia. }
  rewrite E1 in Hup. rewrite E2 in Hlow.
  split.
  - apply Qmult_le_r with (2 ^ k); assumption.
  - apply Qmult_lt_r with (2 ^ k); assumption.
Qed.

Lemma floor_log2_unique (x : Q) (l : Z) :
  2 ^ l <= x -> x < 2 ^ (l + 1) -> floor_log2 x = l.
Proof.
  intros Hl Hu.
  assert (0 < x) as Hx by (pose proof (pow2_pos l); lra).
  destruct (floor_log2_spec x Hx) as [Hl' Hu'].
  assert (l < floor_log2 x + 1)%Z by (apply pow2_lt_inv; lra).
  assert (floor_log2 x < l + 1)%Z by (apply pow2_lt_inv; lra).
  lia.
Qed.

Lemma floor_log2_comp (x y : Q) : 0 < x -> x == y -> floor_log2 x = floor_log2 y.
Proof.
  intros Hx E. destruct (floor_log2_spec x Hx) as [Hl Hu].
  symmetry. apply floor_log2_unique; lra.
Qed.

Lemma floor_log2_mono (x y : Q) : 0 < x -> x <= y -> (floor_log2 x <= floor_log2 y)%Z.
Proof.
  intros Hx H.
  destruct (floor_log2_spec x Hx) as [Hl Hu].
  destruct (floor_log2_spec y ltac:(lra)) as [Hl' Hu'].
  assert (floor_log2 x < floor_log2 y + 1)%Z by (apply pow2_lt_inv; lra).
  lia.
Qed.

(** *** Rounding to the nearest float *)

Lemma round_binary64_0 (x : Q) : x == 0 -> round_binary64 x = 0.
Proof.
  intros E. unfold round_binary64.
  now rewrite (proj2 (Qeq_bool_iff x 0) E).
Qed.

Lemma round_binary64_nonzero (x : Q) :
  ~ x == 0 ->
  round_binary64 x == inject_Z (round_half_even (x / 2 ^ exponent x)) * 2 ^ exponent x.
Proof.
  intros N. unfold round_binary64.
  destruct (Qeq_bool x 0) eqn:E.
  - apply Qeq_bool_iff in E. contradiction.
  - apply Qred_correct.
Qed.

Lemma exponent_comp (x y : Q) : ~ x == 0 -> x == y -> exponent x = exponent y.
Proof.
  intros N E. unfold exponent. f_equal.
  apply floor_log2_comp.
  - pose proof (Qabs_nonneg x). destruct (Qeq_dec (Qabs x) 0) as [Z0 | NZ]; [| lra].
    exfalso. apply N. revert Z0. apply Qabs_case; intros; lra.
  - apply Qabs_wd. exact E.
Qed.

Lemma round_binary64_comp (x y : Q) : x == y -> round_binary64 x == round_binary64 y.
Proof.
  intros E. destruct (Qeq_dec x 0) as [Z0 | N].
  - rewrite (round_binary64_0 x Z0), (round_binary64_0 y) by lra. reflexivity.
  - rewrite (round_binary64_nonzero x N), (round_binary64_nonzero y) by lra.
    rewrite <- (exponent_comp x y N E).
    assert (x / 2 ^ exponent x == y / 2 ^ exponent x) as E'
      by (unfold Qdiv; apply Qmult_comp; [exact E | reflexivity]).
    now rewrite (round_half_even_comp _ _ E').
Qed.

Lemma pow2_split (e n : Z) : 2 ^ (e + n) == 2 ^ n * 2 ^ e.
Proof. rewrite pow2_add. ring. Qed.

(** The scaled value of a positive number lies in [2^52, 2^53), that of a
    negative number in (-2^53, -2^52]. *)
Lemma scaled_pos (x : Q) :
  0 < x -> 2 ^ 52 * 2 ^ exponent x <= x /\ x < 2 ^ 53 * 2 ^ exponent x.
Proof.
  intros Hx. unfold exponent.
  rewrite (floor_log2_comp (Qabs x) x) by (rewrite Qabs_pos; lra).
  destruct (floor_log2_spec x Hx) as [Hl Hu].
  rewrite <- !pow2_split.
  replace (floor_log2 x - 52 + 52)%Z with (floor_log2 x) by lia.
  replace (floor_log2 x - 52 + 53)%Z with (floor_log2 x + 1)%Z by lia.
  split; assumption.
Qed.

Lemma scaled_neg (x : Q) :
  x < 0 -> - (2 ^ 53 * 2 ^ exponent x) < x /\ x <= - (2 ^ 52 * 2 ^ exponent x).
Proof.
  intros Hx. unfold exponent.
  rewrite (floor_log2_comp (Qabs x) (- x)) by (rewrite Qabs_neg; lra).
  destruct (floor_log2_spec (- x) ltac:(lra)) as [Hl Hu].
  rewrite <- !pow2_split.
  replace (floor_log2 (- x) - 52 + 52)%Z with (floor_log2 (- x)) by lia.
  replace (floor_log2 (- x) - 52 + 53)%Z with (floor_log2 (- x) + 1)%Z by lia.
  split; lra.
Qed.

Lemma div_le_pow2 (a x : Q) (e : Z) : a * 2 ^ e <= x -> a <= x / 2 ^ e.
Proof.
  intros H. pose proof (pow2_pos e) as Hp.
  apply Qle_shift_div_l; assumption.
Qed.

Lemma div_ge_pow2 (a x : Q) (e : Z) : x <= a * 2 ^ e -> x / 2 ^ e <= a.
Proof.
  intros H. pose proof (pow2_pos e) as Hp.
  apply Qle_shift_div_r; assumption.
Qed.

Lemma round_pos_bounds (x : Q) :
  0 < x ->
  2 ^ 52 * 2 ^ exponent x <= round_binary64 x
  /\ round_binary64 x <= 2 ^ 53 * 2 ^ exponent x.
Proof.
  intros Hx. destruct (scaled_pos x Hx) as [Hl Hu].
  rewrite (round_binary64_nonzero x) by lra.
  pose proof (pow2_pos (exponent x)) as Hp.
  pose proof (round_half_even_mono _ _ (div_le_pow2 _ _ _ Hl)) as H1.
  pose proof (round_half_even_mono _ _ (div_ge_pow2 _ _ _ (Qlt_le_weak _ _ Hu))) as H2.
  change (2 ^ 52) with (inject_Z (2 ^ 52)) in H1 at 1.
  change (2 ^ 53) with (inject_Z (2 ^ 53)) in H2 at 1.
  rewrite round_half_even_Z in H1, H2.
  rewrite Zle_Qle in H1, H2.
  change (inject_Z (2 ^ 52)) with (2 ^ 52) in H1.
  change (inject_Z (2 ^ 53)) with (2 ^ 53) in H2.
  split; apply Qmult_le_compat_r; lra.
Qed.

Lemma round_neg_bounds (x : Q) :
  x < 0 ->
  - (2 ^ 53 * 2 ^ exponent x) <= round_binary64 x
  /\ round_binary64 x <= - (2 ^ 52 * 2 ^ exponent x).
Proof.
  intros Hx. destruct (scaled_neg x Hx) as [Hl Hu].
  rewrite (round_binary64_nonzero x) by lra.
  pose proof (pow2_pos (exponent x)) as Hp.
  assert (- 2 ^ 53 <= x / 2 ^ exponent x) as Hl'
    by (apply div_le_pow2; lra).
  assert (x / 2 ^ exponent x <= - 2 ^ 52) as Hu'
    by (apply div_ge_pow2; lra).
  pose proof (round_half_even_mono _ _ Hl') as H1.
  pose proof (round_half_even_mono _ _ Hu') as H2.
  change (- 2 ^ 53) with (inject_Z (- 2 ^ 53)) in H1 at 1.
  change (- 2 ^ 52) with (inject_Z (- 2 ^ 52)) in H2 at 1.
  rewrite round_half_even_Z in H1, H2.
  rewrite Zle_Qle in H1, H2.
  change (inject_Z (- 2 ^ 53)) with (- 2 ^ 53) in H1.
  change (inject_Z (- 2 ^ 52)) with (- 2 ^ 52) in H2.
  split.
  - apply Qle_trans with (- 2 ^ 53 * 2 ^ exponent x); [lra |].
    apply Qmult_le_compat_r; lra.
  - apply Qle_trans with (- 2 ^ 52 * 2 ^ exponent x); [| lra].
    apply Qmult_le_compat_r; lra.
Qed.

Lemma round_binary64_sign (x : Q) :
  (0 < x -> 0 < round_binary64 x) /\ (x < 0 -> round_binary64 x < 0).
Proof.
  pose proof (pow2_pos (exponent x)) as Hp.
  assert (0 < 2 ^ 52 * 2 ^ exponent x) as Hpp.
  { apply Qmult_lt_0_compat; [reflexivity | exact Hp]. }
  split; intros Hx.
  - destruct (round_pos_bounds x Hx). lra.
  - destruct (round_neg_bounds x Hx). lra.
Qed.

Lemma round_same_exponent (x y : Q) :
  ~ x == 0 -> ~ y == 0 -> exponent x = exponent y -> x <= y ->
  round_binary64 x <= round_binary64 y.
Proof.
  intros Nx Ny E H.
  rewrite (round_binary64_nonzero x Nx), (round_binary64_nonzero y Ny), <- E.
  pose proof (pow2_pos (exponent x)) as Hp.
  apply Qmult_le_compat_r; [| lra].
  rewrite <- Zle_Qle. apply round_half_even_mono.
  unfold Qdiv. apply Qmult_le_compat_r; [exact H |].
  apply Qlt_le_weak, Qinv_lt_0_compat, Hp.
Qed.

Lemma round_binary64_mono (x y : Q) : x <= y -> round_binary64 x <= round_binary64 y.
Proof.
  intros H.
  destruct (Q_dec x 0) as [[Hx | Hx] | Hx].
  - (* x < 0 *)
    destruct (Q_dec y 0) as [[Hy | Hy] | Hy].
    + assert (exponent y <= exponent x)%Z as He.
      { unfold exponent. apply Z.sub_le_mono_r. apply floor_log2_mono.
        - rewrite Qabs_neg; lra.
        - rewrite !Qabs_neg; lra. }
      destruct (Z.eq_dec (exponent x) (exponent y)) as [E | N].
      * apply round_same_exponent; lra || assumption.
      * destruct (round_neg_bounds x Hx) as [_ Hux].
        destruct (round_neg_bounds y Hy) as [Hly _].
        assert (2 ^ 53 * 2 ^ exponent y <= 2 ^ 52 * 2 ^ exponent x) as Hpow.
        { rewrite <- !pow2_split. apply pow2_le. lia. }
        lra.
    + destruct (round_binary64_sign x) as [_ Sx]. destruct (round_binary64_sign y) as [Sy _].
      specialize (Sx Hx). specialize (Sy Hy). lra.
    + destruct (round_binary64_sign x) as [_ Sx]. specialize (Sx Hx).
      rewrite (round_binary64_0 y Hy). lra.
  - (* 0 < x *)
    assert (0 < y) as Hy by lra.
    assert (exponent x <= exponent y)%Z as He.
    { unfold exponent. apply Z.sub_le_mono_r. apply floor_log2_mono.
      - rewrite Qabs_pos; lra.
      - rewrite !Qabs_pos; lra. }
    destruct (Z.eq_dec (exponent x) (exponent y)) as [E | N].
    + apply round_same_exponent; lra || assumption.
    + destruct (round_pos_bounds x Hx) as [_ Hux].
      destruct (round_pos_bounds y Hy) as [Hly _].
      assert (2 ^ 53 * 2 ^ exponent x <= 2 ^ 52 * 2 ^ exponent y) as Hpow.
      { rewrite <- !pow2_split. apply pow2_le. lia. }
      lra.
  - (* x == 0 *)
    rewrite (round_binary64_0 x Hx).
    destruct (Q_dec y 0) as [[Hy | Hy] | Hy]; [lra | |].
    + destruct (round_binary64_sign y) as [Sy _]. specialize (Sy Hy). lra.
    + rewrite (round_binary64_0 y Hy). lra.
Qed.

(** A number whose scaled value is whole is a float. *)
Lemma round_binary64_exact (x : Q) (k : Z) :
  x / 2 ^ exponent x == inject_Z k -> round_binary64 x == x.
Proof.
  intros E. destruct (Qeq_dec x 0) as [Z0 | N].
  - rewrite (round_binary64_0 x Z0). lra.
  - rewrite (round_binary64_nonzero x N), (round_half_even_comp _ _ E),
      round_half_even_Z, <- E.
    apply mul_pow2_cancel.
Qed.

(** The integers up to [2^53] are floats. *)
Lemma round_binary64_Z (z : Z) :
  (Z.abs z <= 2 ^ 53)%Z -> round_binary64 (inject_Z z) == inject_Z z.
Proof.
  intros Hz.
  destruct (Z.eq_dec (Z.abs z) (2 ^ 53)%Z) as [E | N].
  - destruct (Z.abs_eq_cases z (2 ^ 53)%Z ltac:(lia)) as [-> | ->].
    + vm_compute. reflexivity.
    + vm_compute. reflexivity.
  - destruct (Z.eq_dec z 0%Z) as [-> | Nz]; [reflexivity |].
    assert (Hl : (floor_log2 (Qabs (inject_Z z)) < 53)%Z).
    { assert (0 < Qabs (inject_Z z)) as Hpos.
      { apply Qabs_case; intros H; [| ];
          rewrite ?Zle_Qle in *; unfold Qlt, Qle, inject_Z in *; simpl in *; lia. }
      destruct (floor_log2_spec _ Hpos) as [Hlow _].
      apply pow2_lt_inv. apply Qle_lt_trans with (Qabs (inject_Z z)); [exact Hlow |].
      change (Qabs (inject_Z z)) with (inject_Z (Z.abs z)).
      change (2 ^ 53) with (inject_Z (2 ^ 53)). rewrite <- Zlt_Qlt. lia. }
    apply (round_binary64_exact _ (z * 2 ^ (- exponent (inject_Z z)))).
    unfold exponent in *.
    set (e := (floor_log2 (Qabs (inject_Z z)) - 52)%Z) in *.
    assert (0 <= - e)%Z as He by lia.
    rewrite inject_Z_mult, (pow2_Z (- e) He).
    pose proof (pow2_pos e) as Hp.
    rewrite Qpower_opp. field. lra.
Qed.

End FloatFacts.

Module RateLimiterFacts.
Import RateLimiter.

Section Limiter.

Variable requests_per_window : Z.
Variable window_seconds : Z.

Local Abbreviation cutoff := (cutoff window_seconds).
Local Abbreviation clean := (clean window_seconds).
Local Abbreviation rate_limit_check := (rate_limit_check requests_per_window window_seconds).
Local Abbreviation permits := (permits requests_per_window window_seconds).
Local Abbreviation count_in_window := (count_in_window window_seconds).
Local Abbreviation window_inv := (window_inv requests_per_window window_seconds).

Lemma newer_spec c x : newer c x = true <-> (c < x)%Q.
Proof.
  unfold newer. destruct (Qlt_le_dec c x) as [H | H]; split; intros H'; try easy.
  exfalso. apply (Qlt_irrefl x). apply Qle_lt_trans with c; assumption.
Qed.

Lemma newer_false c x : newer c x = false <-> (x <= c)%Q.
Proof.
  unfold newer. destruct (Qlt_le_dec c x) as [H | H]; split; intros H'; try easy.
  exfalso. apply (Qlt_irrefl x). apply Qle_lt_trans with c; assumption.
Qed.

(** Cleaning with a later cutoff subsumes cleaning with an earlier one. *)
Lemma filter_newer_absorb c c' (l : list Q) :
  (c <= c')%Q ->
  List.filter (newer c') (List.filter (newer c) l) = List.filter (newer c') l.
Proof.
  intros Hc. induction l as [|x l IH]; simpl; [reflexivity |].
  destruct (newer c x) eqn:Ex; simpl.
  - now rewrite IH.
  - rewrite IH. apply newer_false in Ex.
    assert (newer c' x = false) as ->; [| reflexivity].
    apply newer_false. apply Qle_trans with c; assumption.
Qed.

Lemma filter_length_le {A} (f : A -> bool) (l : list A) :
  (length (List.filter f l) <= length l)%nat.
Proof.
  induction l as [|x l IH]; simpl; [lia |]. destruct (f x); simpl; lia.
Qed.

(** A later call has a later cutoff. *)
Lemma cutoff_mono T T' : (T <= T')%Q -> (cutoff T <= cutoff T')%Q.
Proof.
  intros H. unfold RateLimiter.cutoff, float_sub. apply round_binary64_mono. lra.
Qed.

Lemma clean_stored k now s :
  clean k now s = List.filter (newer (cutoff now)) (stored s k).
Proof. unfold clean, stored. destruct (s !! k); reflexivity. Qed.

Lemma rate_limit_check_other c k now s :
  c <> k -> snd (rate_limit_check c now s) !! k = s !! k.
Proof.
  intros Hne. unfold rate_limit_check.
  destruct (_ <=? _); [destruct (py_min _) |]; simpl;
    rewrite ?lookup_insert_ne by assumption; reflexivity.
Qed.

Lemma rate_limit_check_permit k now s :
  fst (rate_limit_check k now s) = Permit ->
  Z.of_nat (length (clean k now s)) < requests_per_window /\
  stored (snd (rate_limit_check k now s)) k = clean k now s ++ [now].
Proof.
  unfold rate_limit_check, stored.
  destruct (Z.leb_spec requests_per_window (Z.of_nat (length (clean k now s)))) as [H | H].
  - destruct (py_min _); simpl; discriminate.
  - simpl. intros _. split; [exact H |]. now rewrite lookup_insert_eq.
Qed.

Lemma rate_limit_check_refused k now s :
  fst (rate_limit_check k now s) <> Permit ->
  stored (snd (rate_limit_check k now s)) k = clean k now s.
Proof.
  unfold rate_limit_check, stored.
  destruct (_ <=? _); [destruct (py_min _) |]; simpl; intros H;
    try congruence; now rewrite lookup_insert_eq.
Qed.

Lemma window_inv_later s s' k P T T' :
  (T <= T')%Q ->
  stored s' k = List.filter (newer (cutoff T')) (stored s k) \/ stored s' k = stored s k ->
  window_inv s k P T -> window_inv s' k P T'.
Proof.
  intros HT Hs (Hf & Hb & Hc). repeat split; [| | exact Hc].
  - pose proof (cutoff_mono _ _ HT) as Hle.
    rewrite <- (filter_newer_absorb _ _ P Hle), Hf, (filter_newer_absorb _ _ _ Hle).
    destruct Hs as [-> | ->]; [| reflexivity].
    symmetry. apply filter_newer_absorb. apply Qle_refl.
  - intros x Hx. apply Qle_trans with T; [now apply Hb | exact HT].
Qed.

Lemma count_in_window_app t (l l' : list Q) :
  count_in_window t (l ++ l') = (count_in_window t l + count_in_window t l')%nat.
Proof. unfold RateLimiter.count_in_window. now rewrite List.filter_app, length_app. Qed.

(** Below the end of the window only the lower end of the window counts. *)
Lemma count_in_window_bounded t c (l : list Q) :
  (c <= cutoff t)%Q -> (forall x, In x l -> (x <= t)%Q) ->
  (count_in_window t l <= length (List.filter (newer c) l))%nat.
Proof.
  intros Hc Hb. unfold RateLimiter.count_in_window.
  induction l as [|x l IH]; simpl; [lia |].
  assert (forall y, In y l -> (y <= t)%Q) as Hb' by (intros y Hy; apply Hb; now right).
  specialize (IH Hb').
  destruct (in_trailing_window window_seconds t x) eqn:Ex.
  - unfold in_trailing_window in Ex. apply andb_true_iff in Ex as [Ex _].
    apply newer_spec in Ex. fold (cutoff t) in Ex.
    assert (newer c x = true) as -> by (apply newer_spec; lra).
    simpl. lia.
  - destruct (newer c x); simpl; lia.
Qed.

Lemma permits_window k calls :
  forall s T P,
    window_inv s k P T -> clock_monotone T calls ->
    forall t, Z.of_nat (count_in_window t (P ++ permits k calls s)) <= requests_per_window.
Proof.
  induction calls as [|[c now] calls IH]; intros s T P Hinv Hmono t.
  - simpl. rewrite app_nil_r. apply Hinv.
  - destruct Hmono as [HT Hmono]. simpl.
    destruct (rate_limit_check c now s) as [o s1] eqn:E.
    assert (o = fst (rate_limit_check c now s)) as Ho by now rewrite E.
    assert (s1 = snd (rate_limit_check c now s)) as Hs1 by now rewrite E.
    destruct (decide (c = k)) as [-> | Hne].
    + destruct (decide (o = Permit)) as [-> | Hno].
      * destruct (rate_limit_check_permit k now s) as [Hlen Hst]; [now rewrite <- Ho |].
        rewrite <- Hs1 in Hst.
        replace (P ++ now :: permits k calls s1) with ((P ++ [now]) ++ permits k calls s1)
          by now rewrite <- app_assoc.
        apply (IH s1 now); [| exact Hmono].
        destruct Hinv as (Hf & Hb & Hc).
        pose proof (cutoff_mono _ _ HT) as Hle.
        assert (List.filter (newer (cutoff now)) P = clean k now s) as HP.
        { rewrite clean_stored, <- (filter_newer_absorb _ _ P Hle), Hf.
          apply filter_newer_absorb. exact Hle. }
        assert (forall x, In x (P ++ [now]) -> (x <= now)%Q) as Hb1.
        { intros x Hx. apply in_app_or in Hx as [Hx | [<- | []]]; [| apply Qle_refl].
          apply Qle_trans with T; [now apply Hb | exact HT]. }
        repeat split; [| exact Hb1 |].
        -- rewrite Hst, !List.filter_app, HP. f_equal.
           rewrite clean_stored. symmetry. apply filter_newer_absorb, Qle_refl.
        -- intros t'. rewrite count_in_window_app.
           destruct (in_trailing_window window_seconds t' now) eqn:Ein.
           ++ pose proof Ein as Ein'. unfold in_trailing_window in Ein'.
              apply andb_true_iff in Ein' as [_ Hle'].
              apply Qle_bool_iff in Hle'.
              assert (count_in_window t' P <= length (clean k now s))%nat as Hcnt.
              { rewrite <- HP.
                assert (count_in_window t' P
                        <= length (List.filter (newer (cutoff t')) P))%nat as H1.
                { apply count_in_window_bounded; [apply Qle_refl |].
                  intros x Hx. apply Qle_trans with now; [| exact Hle'].
                  apply Hb1, in_or_app. now left. }
                pose proof (cutoff_mono _ _ Hle') as Hle2.
                rewrite <- (filter_newer_absorb _ _ P Hle2) in H1.
                pose proof (filter_length_le (newer (cutoff t'))
                              (List.filter (newer (cutoff now)) P)). lia. }
              unfold RateLimiter.count_in_window at 2. simpl. rewrite Ein. simpl. lia.
           ++ unfold RateLimiter.count_in_window at 2. simpl. rewrite Ein. simpl.
              specialize (Hc t'). lia.
      * assert (permits k calls s1 =
                match o with Permit => now :: permits k calls s1 | _ => permits k calls s1 end) as Heq
          by (destruct o; congruence).
        rewrite <- Heq. apply (IH s1 now); [| exact Hmono].
        apply (window_inv_later s s1 k P T now HT); [| exact Hinv].
        left. rewrite Hs1, <- clean_stored. apply rate_limit_check_refused. congruence.
    + assert (permits k calls s1 =
              match o with Permit => permits k calls s1 | _ => permits k calls s1 end) as Heq
        by (destruct o; reflexivity).
      rewrite <- Heq. apply (IH s1 now); [| exact Hmono].
      apply (window_inv_later s s1 k P T now HT); [| exact Hinv].
      right. unfold stored. now rewrite Hs1, rate_limit_check_other.
Qed.

End Limiter.

End RateLimiterFacts.

(** ** C1: the sliding window of the rate limiter *)

(** C1 (as the code has it). With a positive [max_requests]: over any run of
    calls read off a clock that does not go backwards, at most
    [max_requests] permits of one client fall in any trailing window, the
    window of a reading [t] being measured as the code measures it, from
    the float [t - window_seconds] (excluded) to [t]; a call that finds
    [max_requests] or more stored readings newer than the float
    [now - window_seconds] is denied, with [retry_after] the integer part of
    the float [window_seconds - (now - earliest such reading)], both
    subtractions rounded, and stores nothing but those readings; any other
    call is permitted and its own reading is appended to them. *)
Theorem rate_limit_window_bound (max_requests window_seconds : Z)
    (Hmax : 0 < max_requests) :
  (forall calls t0 k t,
      RateLimiter.clock_monotone t0 calls ->
      Z.of_nat (RateLimiter.count_in_window window_seconds t
                  (RateLimiter.permits max_requests window_seconds k calls ∅))
      <= max_requests)
  /\ (forall k now s,
        let kept :=
          List.filter
            (fun x => if Qlt_le_dec (float_sub now (float_of_int window_seconds)) x
                      then true else false)
            (RateLimiter.stored s k) in
        max_requests <= Z.of_nat (length kept) ->
        exists oldest,
          In oldest kept /\ (forall x, In x kept -> (oldest <= x)%Q) /\
          RateLimiter.rate_limit_check max_requests window_seconds k now s
          = (RateLimiter.Deny
               (py_int (float_sub (float_of_int window_seconds)
                          (float_sub now oldest))),
             <[k := kept]> s))
  /\ (forall k now s,
        let kept :=
          List.filter
            (fun x => if Qlt_le_dec (float_sub now (float_of_int window_seconds)) x
                      then true else false)
            (RateLimiter.stored s k) in
        Z.of_nat (length kept) < max_requests ->
        RateLimiter.rate_limit_check max_requests window_seconds k now s
        = (RateLimiter.Permit, <[k := kept ++ [now]]> s)).
Proof.
  split; [| split].
  - intros calls t0 k t Hmono.
    apply (RateLimiterFacts.permits_window max_requests window_seconds k calls ∅ t0 []).
    + repeat split.
      * intros x [].
      * intros t'. unfold RateLimiter.count_in_window. simpl. lia.
    + exact Hmono.
  - intros k now s kept Hlen.
    assert (Hk : kept = RateLimiter.clean window_seconds k now s)
      by (symmetry; apply RateLimiterFacts.clean_stored).
    assert (kept <> []) as Hne by (intros E; rewrite E in Hlen; simpl in Hlen; lia).
    destruct (py_min_least kept Hne) as (oldest & Hmin & Hin & Hle).
    exists oldest. repeat split; [exact Hin | exact Hle |].
    unfold RateLimiter.rate_limit_check. rewrite <- Hk.
    destruct (Z.leb_spec max_requests (Z.of_nat (length kept))); [| lia].
    now rewrite Hmin.
  - intros k now s kept Hlen.
    assert (Hk : kept = RateLimiter.clean window_seconds k now s)
      by (symmetry; apply RateLimiterFacts.clean_stored).
    unfold RateLimiter.rate_limit_check. rewrite <- Hk.
    destruct (Z.leb_spec max_requests (Z.of_nat (length kept))); [lia |].
    now rewrite insert_insert_eq.
Qed.

(** One client, two permits an hour, calls at [0], [1/2] and [1]: the third
    call is the one denied, and no window holds more than the two permits. *)
Lemma rate_limit_window_bound_witness :
  0 < 2 /\
  RateLimiter.clock_monotone 0%Q
    [("c"%string, 0%Q); ("c"%string, (1 # 2)%Q); ("c"%string, 1%Q)] /\
  Z.of_nat (RateLimiter.count_in_window 3600 1%Q
              (RateLimiter.permits 2 3600 "c"
                 [("c"%string, 0%Q); ("c"%string, (1 # 2)%Q); ("c"%string, 1%Q)] ∅)) <= 2.
Proof.
  assert (0 < 2) as H by lia.
  assert (RateLimiter.clock_monotone 0%Q
            [("c"%string, 0%Q); ("c"%string, (1 # 2)%Q); ("c"%string, 1%Q)]) as Hm.
  { simpl. repeat split; unfold Qle; simpl; lia. }
  split; [exact H | split; [exact Hm |]].
  exact (proj1 (rate_limit_window_bound 2 3600 H) _ 0%Q "c"%string 1%Q Hm).
Defined.

(** C1 as stated does not hold, in four ways.
    - The hint is an integer: one permit per ten seconds, a reading at [0]
      stored, a call at [1/2]. The call is denied with [retry_after = 9],
      where [window_seconds - (now - earliest)] is [19/2].
    - The hint is computed in floats: with the reading [0.1] stored and a
      call at [1.1], the float [1.1 - 0.1] is [1], and the call is denied
      with [retry_after = 9], where the integer part of
      [window_seconds - (now - earliest)] is [8].
    - A limit of [0] denies nobody: the first call dies on [min] of the
      empty sequence.
    - A clock that goes backwards lets a third permit into a window: limit
      2, window 10, calls at 100, 101, 200 and then 102 are all permitted,
      and three of them lie in the window that ends at 102. *)
Lemma rate_limit_claim_fails :
  (fst (RateLimiter.rate_limit_check 1 10 "c" (1 # 2) {["c"%string := [0%Q]]})
   = RateLimiter.Deny 9
   /\ ~ (inject_Z 9 == inject_Z 10 - ((1 # 2) - 0))%Q)
  /\ (let stored_reading := round_binary64 (1 # 10) in
      let now := round_binary64 (11 # 10) in
      fst (RateLimiter.rate_limit_check 1 10 "c" now {["c"%string := [stored_reading]]})
      = RateLimiter.Deny 9
      /\ py_int (inject_Z 10 - (now - stored_reading))%Q = 8)
  /\ fst (RateLimiter.rate_limit_check 0 10 "c" 0%Q ∅) = RateLimiter.ValueError
  /\ (let calls := [("c"%string, 100%Q); ("c"%string, 101%Q);
                    ("c"%string, 200%Q); ("c"%string, 102%Q)] in
      fst (RateLimiter.run 2 10 calls ∅)
      = [RateLimiter.Permit; RateLimiter.Permit; RateLimiter.Permit; RateLimiter.Permit]
      /\ RateLimiter.count_in_window 10 102%Q (RateLimiter.permits 2 10 "c" calls ∅)
         = 3%nat).
Proof.
  split; [split | split; [split | split; [| split]]]; try (vm_compute; reflexivity).
  unfold Qeq. simpl. lia.
Qed.

(** ** C5: a denied call leaves no trace *)

Lemma stored_sublist_permits (max_requests window_seconds : Z) (k : string)
    (calls : list (string * Q)) :
  forall s P,
    sublist (RateLimiter.stored s k) P ->
    sublist
      (RateLimiter.stored (snd (RateLimiter.run max_requests window_seconds calls s)) k)
      (P ++ RateLimiter.permits max_requests window_seconds k calls s).
Proof.
  induction calls as [|[c now] calls IH]; intros s P Hsub; simpl.
  - now rewrite app_nil_r.
  - destruct (RateLimiter.rate_limit_check max_requests window_seconds c now s)
      as [o s1] eqn:E.
    assert (o = fst (RateLimiter.rate_limit_check max_requests window_seconds c now s))
      as Ho by now rewrite E.
    assert (s1 = snd (RateLimiter.rate_limit_check max_requests window_seconds c now s))
      as Hs1 by now rewrite E.
    destruct (RateLimiter.run max_requests window_seconds calls s1) as [os s2] eqn:Er.
    assert (s2 = snd (RateLimiter.run max_requests window_seconds calls s1)) as ->
      by now rewrite Er.
    simpl.
    assert (sublist (List.filter (RateLimiter.newer (RateLimiter.cutoff window_seconds now))
                       (RateLimiter.stored s c)) (RateLimiter.stored s c)) as Hfil.
    { generalize (RateLimiter.stored s c). intros l.
      induction l as [|x l IHl]; simpl; [constructor |].
      destruct (RateLimiter.newer _ x); now constructor. }
    destruct (decide (c = k)) as [-> | Hne].
    + destruct (decide (o = RateLimiter.Permit)) as [-> | Hno].
      * replace (P ++ now :: RateLimiter.permits max_requests window_seconds k calls s1)
          with ((P ++ [now]) ++ RateLimiter.permits max_requests window_seconds k calls s1)
          by now rewrite <- app_assoc.
        apply IH. rewrite Hs1.
        destruct (RateLimiterFacts.rate_limit_check_permit
                    max_requests window_seconds k now s) as [_ ->]; [now rewrite <- Ho |].
        apply sublist_app; [| reflexivity].
        rewrite RateLimiterFacts.clean_stored. now transitivity (RateLimiter.stored s k).
      * assert (RateLimiter.permits max_requests window_seconds k calls s1 =
                match o with
                | RateLimiter.Permit =>
                    now :: RateLimiter.permits max_requests window_seconds k calls s1
                | _ => RateLimiter.permits max_requests window_seconds k calls s1
                end) as <- by (destruct o; congruence).
        apply IH. rewrite Hs1, RateLimiterFacts.rate_limit_check_refused by congruence.
        rewrite RateLimiterFacts.clean_stored. now transitivity (RateLimiter.stored s k).
    + assert (RateLimiter.permits max_requests window_seconds k calls s1 =
              match o with
              | RateLimiter.Permit =>
                  RateLimiter.permits max_requests window_seconds k calls s1
              | _ => RateLimiter.permits max_requests window_seconds k calls s1
              end) as <- by (destruct o; reflexivity).
      apply IH. unfold RateLimiter.stored.
      now rewrite Hs1, RateLimiterFacts.rate_limit_check_other.
Qed.

(** C5. A call that is not permitted appends nothing: the sequence it leaves
    for its client is the prior one less the expired readings, the other
    clients' sequences are untouched, and over any run from an empty store
    the stored sequence of a client is a subsequence of the readings of its
    permitted calls. *)
Theorem denied_call_leaves_no_trace (max_requests window_seconds : Z)
    (k : string) (now : Q) (s : gmap string (list Q))
    (Hdenied :
       fst (RateLimiter.rate_limit_check max_requests window_seconds k now s)
       <> RateLimiter.Permit) :
  let s' := snd (RateLimiter.rate_limit_check max_requests window_seconds k now s) in
  s' !! k = Some (List.filter
                    (RateLimiter.newer (float_sub now (float_of_int window_seconds)))
                    (RateLimiter.stored s k))
  /\ (forall k', k' <> k -> s' !! k' = s !! k')
  /\ (forall calls k',
        sublist
          (RateLimiter.stored
             (snd (RateLimiter.run max_requests window_seconds calls ∅)) k')
          (RateLimiter.permits max_requests window_seconds k' calls ∅)).
Proof.
  intros s'. split; [| split].
  - subst s'. fold (RateLimiter.cutoff window_seconds now).
    rewrite <- RateLimiterFacts.clean_stored.
    revert Hdenied. unfold RateLimiter.rate_limit_check.
    destruct (_ <=? _); [destruct (py_min _) |]; simpl; intros H;
      try congruence; now rewrite lookup_insert_eq.
  - intros k' Hne. subst s'. now apply RateLimiterFacts.rate_limit_check_other.
  - intros calls k'.
    apply (stored_sublist_permits max_requests window_seconds k' calls ∅ []).
    unfold RateLimiter.stored. rewrite lookup_empty. constructor.
Qed.

(** One permit per ten seconds, a reading at [0] stored: the call at [1/2]
    is denied and the store still holds that one reading. *)
Lemma denied_call_leaves_no_trace_witness :
  snd (RateLimiter.rate_limit_check 1 10 "c" (1 # 2) {["c"%string := [0%Q]]})
    !! "c"%string
  = Some (List.filter (RateLimiter.newer (float_sub (1 # 2) (float_of_int 10)))
            (RateLimiter.stored {["c"%string := [0%Q]]} "c")).
Proof.
  assert (fst (RateLimiter.rate_limit_check 1 10 "c" (1 # 2) {["c"%string := [0%Q]]})
          <> RateLimiter.Permit) as H by (vm_compute; discriminate).
  exact (proj1 (denied_call_leaves_no_trace 1 10 "c"%string (1 # 2)
                  {["c"%string := [0%Q]]} H)).
Defined.

(** ** The chat handler, step by step *)

Section ChatFacts.

Variable env : environment.
Variable request : ChatRequest.
Variable http : http_request.

Lemma call_claude_run messages w :
  call_claude env request messages w =
  let c := mk_call (model request) (max_tokens request) messages system_prompt in
  let w1 := set_sent (sent w ++ [c]) w in
  let failed e := (Raise (fst (provider_failure e)),
                   set_logger (logger w1 ++ [snd (provider_failure e)]) w1) in
  match anthropic_client env c with
  | Ok r =>
      match resp_content r with
      | [] => (Ok (""%string, input_tokens r + output_tokens r), w1)
      | TextBlock t :: _ => (Ok (t, input_tokens r + output_tokens r), w1)
      | OtherBlock :: _ => failed (Exception "object has no attribute 'text'")
      end
  | Raise e => failed e
  end.
Proof.
  unfold call_claude, try_except, messages_create, mbind, M_bind, bind. simpl.
  destruct (anthropic_client env _) as [r | e]; simpl.
  - destruct (resp_content r) as [|[t|] rest]; reflexivity.
  - reflexivity.
Qed.

Lemma query_history_run sid n w :
  no_fault w ->
  query_history sid n w
  = (Ok (select_history sid n (db w)), set_faults (tail (faults w)) w).
Proof.
  unfold no_fault, query_history, round_trip, mbind, M_bind, bind, get, ret.
  destruct (faults w) as [|[m|] rest]; simpl; intros H; easy.
Qed.

(** Past the limiter and the history query, the handler is the provider
    call followed by the two [add_task]; whatever the provider call raises
    has become an [HTTPException] and passes through. *)
Lemma chat_with_claude_run w :
  permitted env http w ->
  no_fault w ->
  chat_with_claude env request http w =
  let sid := session_id_of env request in
  let info := get_client_info http in
  let s1 := snd (RateLimiter.rate_limit_check (RATE_LIMIT_REQUESTS env)
                   (RATE_LIMIT_WINDOW env) (client_host http)
                   (time_at_rate_limit env) (rate_limit_storage w)) in
  let w0 := set_faults (tail (faults w)) (set_rate_limit_storage s1 w) in
  match call_claude env request (call_messages (call_for env request (db w))) w0 with
  | (Ok (a, t), w1) =>
      let pt := float_sub (time_at_end env) (time_at_start env) in
      (Ok (mk_response true (Some a) sid t pt (model request) None None),
       set_background_tasks
         ((background_tasks w1
           ++ [LogConversationTask sid (message request) (Some a) t pt (model request)
                 true None None (Some info)])
          ++ [UpdateSessionStatsTask sid info]) w1)
  | (Raise e, w1) => (Raise e, w1)
  end.
Proof.
  intros Hrl Hnf. unfold permitted in Hrl.
  unfold chat_with_claude, rate_limit_check.
  unfold mbind at 1. unfold M_bind, bind.
  destruct (RateLimiter.rate_limit_check _ _ _ _ _) as [o s1] eqn:E.
  simpl in Hrl. subst o. simpl.
  unfold try_except, chat_body.
  unfold mbind at 1. unfold M_bind, bind.
  rewrite query_history_run by exact Hnf. simpl.
  unfold mbind at 1. unfold M_bind, bind.
  rewrite call_claude_run. simpl.
  destruct (anthropic_client env _) as [r | e]; simpl.
  - destruct (resp_content r) as [|[t|] rest]; reflexivity.
  - destruct e; reflexivity.
Qed.

End ChatFacts.

(** ** The queued tasks *)

Ltac run_monad :=
  unfold log_conversation, update_session_stats, query_session, db_add, db_commit,
    db_rollback, logger_log, round_trip, try_except, modify, get, ret, raise,
    mbind, M_bind, bind.

(** A task fails to commit when a round trip fails or the engine rejects
    its change. *)
Lemma run_task_spec now t w :
  let r := run_task now t w in
  fst r = Ok tt
  /\ pending (snd r) = []
  /\ (if meets_fault (task_round_trips t) w
         || negb (forallb accepted (pending w ++ [task_change now t (db w)]))
      then db (snd r) = db w
           /\ exists text cause, logger (snd r) = logger w ++ [LogError text cause]
      else db (snd r)
           = fold_left apply_op (pending w ++ [task_change now t (db w)]) (db w)
           /\ logger (snd r) = logger w).
Proof.
  destruct t; unfold run_task, meets_fault, task_round_trips, task_change; run_monad.
  - destruct w as [rls d p lg bt sn [|[m|] rest]]; simpl;
      try (destruct (forallb accepted _)); simpl; repeat split; eauto.
  - destruct w as [rls d p lg bt sn [|[m|] [|[m'|] rest]]]; simpl;
      try (destruct (forallb accepted _)); simpl; repeat split; eauto.
Qed.

Lemma run_task_frame now t w :
  let r := run_task now t w in
  rate_limit_storage (snd r) = rate_limit_storage w
  /\ background_tasks (snd r) = background_tasks w
  /\ sent (snd r) = sent w.
Proof.
  destruct t; unfold run_task; run_monad.
  - destruct w as [rls d p lg bt sn [|[m|] rest]]; simpl;
      try (destruct (forallb accepted _)); simpl; repeat split; eauto.
  - destruct w as [rls d p lg bt sn [|[m|] [|[m'|] rest]]]; simpl;
      try (destruct (forallb accepted _)); simpl; repeat split; eauto.
Qed.

Lemma run_tasks_spec now ts :
  forall w,
    run_tasks now ts w
    = (Ok tt, fold_left (fun w' t => snd (run_task now t w')) ts w).
Proof.
  induction ts as [|t ts IH]; intros w; simpl; [reflexivity |].
  unfold mbind, M_bind, bind.
  destruct (run_task_spec now t w) as [Hok _].
  destruct (run_task now t w) as [r w1]. simpl in Hok. subst r. apply IH.
Qed.

Lemma session_change_accepted now sid info o :
  accepted (session_change now sid info o) = true.
Proof. destruct o; reflexivity. Qed.

Lemma requested_session_of env request sid :
  requested_session env request sid -> session_id_of env request = sid.
Proof.
  unfold requested_session, session_id_of.
  destruct (session_id request) as [s |]; [destruct (String.eqb s "") |]; congruence.
Qed.

(** ** C8: an empty provider answer *)

Lemma permitted_fresh_session env http w :
  permitted env http (set_background_tasks [] (set_pending [] w))
  <-> permitted env http w.
Proof. reflexivity. Qed.

Lemma no_fault_fresh_session w :
  no_fault (set_background_tasks [] (set_pending [] w)) <-> no_fault w.
Proof. reflexivity. Qed.

(** C8. When the provider answers with no content block, the exchange is a
    success with the empty string for its text, and the token count is the
    sum of the input and output tokens the provider reported. *)
Theorem empty_content_is_success (env : environment) (request : ChatRequest)
    (http : http_request) (w : world) (r : provider_response)
    (Hpermit : permitted env http w)
    (Hquery : no_fault w)
    (Hanswer : anthropic_client env (call_for env request (db w)) = Ok r)
    (Hempty : resp_content r = []) :
  exists body,
    fst (chat_with_claude env request http w) = Ok body
    /\ fst (post_chat env request http w) = Response200 body
    /\ success body = true
    /\ response body = Some ""%string
    /\ error body = None
    /\ error_type body = None
    /\ tokens_used body = input_tokens r + output_tokens r.
Proof.
  eexists. split; [| split].
  - rewrite chat_with_claude_run by assumption. simpl.
    rewrite call_claude_run. simpl. unfold call_for in Hanswer.
    rewrite Hanswer, Hempty. simpl. reflexivity.
  - unfold post_chat.
    rewrite chat_with_claude_run
      by (try apply permitted_fresh_session; try apply no_fault_fresh_session; assumption).
    simpl. rewrite call_claude_run. simpl. unfold call_for in Hanswer.
    rewrite Hanswer, Hempty. simpl. reflexivity.
  - simpl. repeat split.
Qed.

Lemma empty_content_is_success_witness :
  exists body,
    fst (chat_with_claude (sample_env (Ok (mk_provider_response [] 12 0)))
           sample_request sample_http initial_world) = Ok body
    /\ success body = true
    /\ response body = Some ""%string
    /\ tokens_used body = 12.
Proof.
  assert (permitted (sample_env (Ok (mk_provider_response [] 12 0))) sample_http
            initial_world) as Hp by (vm_compute; reflexivity).
  assert (no_fault initial_world) as Hq by (vm_compute; exact I).
  destruct (empty_content_is_success
              (sample_env (Ok (mk_provider_response [] 12 0)))
              sample_request sample_http initial_world
              (mk_provider_response [] 12 0) Hp Hq eq_refl eq_refl)
    as (body & H1 & _ & H2 & H3 & _ & _ & H4).
  exists body. repeat split; assumption.
Defined.

(** ** C2: a provider call that fails *)

(** C2 (as the code has it). When the provider call of an exchange raises,
    the handler logs it and raises the [HTTPException] of its class (429
    [api_rate_limit], 503 [api_error], 500 [general_error]), which the outer
    [except HTTPException: raise] lets through: no task is queued, and the
    tables are left as they were, so no ConversationRecord is written for
    the exchange. *)
Theorem provider_failure_is_not_recorded (env : environment)
    (request : ChatRequest) (http : http_request) (w : world) (e : exn)
    (Hpermit : permitted env http w)
    (Hquery : no_fault w)
    (Hfail : anthropic_client env (call_for env request (db w)) = Raise e) :
  fst (chat_with_claude env request http w) = Raise (fst (provider_failure e))
  /\ background_tasks (snd (chat_with_claude env request http w)) = background_tasks w
  /\ fst (post_chat env request http w)
     = match e with
       | RateLimitError _ =>
           JSONResponse 429
             (DetailError "API rate limit exceeded. Please try again later."
                "api_rate_limit" (Some 60))
       | APIError _ =>
           JSONResponse 503
             (DetailError "AI service temporarily unavailable. Please try again."
                "api_error" None)
       | _ =>
           JSONResponse 500
             (DetailError "Internal server error occurred." "general_error" None)
       end
  /\ db (snd (post_chat env request http w)) = db w
  /\ logger (snd (post_chat env request http w))
     = logger w ++ [snd (provider_failure e); LogWarning "HTTP" ""].
Proof.
  unfold call_for in Hfail.
  assert (chat_with_claude env request http w
          = (Raise (fst (provider_failure e)),
             set_logger (logger w ++ [snd (provider_failure e)])
               (set_sent (sent w ++ [call_for env request (db w)])
                  (set_faults (tail (faults w))
                     (set_rate_limit_storage
                        (snd (RateLimiter.rate_limit_check (RATE_LIMIT_REQUESTS env)
                                (RATE_LIMIT_WINDOW env) (client_host http)
                                (time_at_rate_limit env) (rate_limit_storage w)))
                        w))))) as Hrun.
  { rewrite chat_with_claude_run by assumption. simpl.
    rewrite call_claude_run. simpl. rewrite Hfail. reflexivity. }
  split; [now rewrite Hrun | split; [now rewrite Hrun |]].
  unfold post_chat.
  rewrite chat_with_claude_run
    by (try apply permitted_fresh_session; try apply no_fault_fresh_session; assumption).
  simpl. rewrite call_claude_run. simpl. rewrite Hfail.
  destruct e; simpl; rewrite <- ?app_assoc; repeat split.
Qed.

Lemma provider_failure_is_not_recorded_witness :
  fst (post_chat (sample_env (Raise (RateLimitError "429 Too Many Requests")))
         sample_request sample_http initial_world)
  = JSONResponse 429
      (DetailError "API rate limit exceeded. Please try again later."
         "api_rate_limit" (Some 60))
  /\ db (snd (post_chat (sample_env (Raise (RateLimitError "429 Too Many Requests")))
                sample_request sample_http initial_world))
     = db initial_world.
Proof.
  assert (permitted (sample_env (Raise (RateLimitError "429 Too Many Requests")))
            sample_http initial_world) as Hp by (vm_compute; reflexivity).
  assert (no_fault initial_world) as Hq by (vm_compute; exact I).
  destruct (provider_failure_is_not_recorded
              (sample_env (Raise (RateLimitError "429 Too Many Requests")))
              sample_request sample_http initial_world
              (RateLimitError "429 Too Many Requests") Hp Hq eq_refl)
    as (_ & _ & H1 & H2 & _).
  split; assumption.
Defined.

(** C2 as stated does not hold: the provider is unavailable for the first
    exchange of a fresh process; the caller gets a 503 and the
    conversation table stays empty, where the claim wants one row in it. *)
Lemma provider_failure_leaves_no_record :
  fst (post_chat (sample_env (Raise (APIError "overloaded")))
         sample_request sample_http initial_world)
  = JSONResponse 503
      (DetailError "AI service temporarily unavailable. Please try again."
         "api_error" None)
  /\ conversation_logs
       (db (snd (post_chat (sample_env (Raise (APIError "overloaded")))
                   sample_request sample_http initial_world)))
     = [].
Proof. split; vm_compute; reflexivity. Qed.

(** Where the failure row of lines 441-446 does come from: a history query
    that fails, with the storage engine back for the commit. *)
Lemma history_failure_is_recorded :
  exists body row,
    post_chat (sample_env (Ok (mk_provider_response [TextBlock "hello"] 9 3)))
      sample_request sample_http (set_faults [Some "database is locked"%string] initial_world)
    = (Response200 body,
       set_logger [LogError "Chat endpoint error" "database is locked"]
         (set_db (mk_database [row] [] [] [])
            (set_rate_limit_storage {["203.0.113.7"%string := [(1000 # 1)%Q]]}
               initial_world)))
    /\ success body = false
    /\ error_type body = Some "general_error"%string
    /\ ConversationLog.success row = false
    /\ ConversationLog.error_type row = Some "general_error"%string
    /\ ConversationLog.error_message row = Some "database is locked"%string.
Proof.
  eexists. eexists. split; [vm_compute; reflexivity |]. repeat split.
Qed.

(** ** C3: the first exchange of a session *)

(** C3, the code at a first exchange: [POST /chat {message: "hi"}] on a
    fresh process, the provider answering "hello". The exchange succeeds,
    one conversation row and one session row are written, and the session
    row carries [total_messages = 0]: the creating branch of
    [update_session_stats] leaves the counter at its column default, only
    the branch for an existing row counts. *)
Theorem first_exchange_counts_no_message :
  let env := sample_env (Ok (mk_provider_response [TextBlock "hello"] 9 3)) in
  let w' := snd (post_chat env sample_request sample_http initial_world) in
  (exists body,
      fst (post_chat env sample_request sample_http initial_world) = Response200 body
      /\ success body = true
      /\ resp_session_id body = uuid4 env
      /\ tokens_used body = 12)
  /\ length (conversation_logs (db w')) = 1%nat
  /\ (exists s,
        user_sessions (db w') = [s]
        /\ UserSession.session_uuid s = uuid4 env
        /\ UserSession.total_messages s = 0).
Proof.
  intros env w'. split; [| split].
  - eexists. split; [vm_compute; reflexivity |]. repeat split.
  - vm_compute. reflexivity.
  - eexists. split; [vm_compute; reflexivity |]. split; reflexivity.
Qed.

(** The counter reaches 1 only with the second exchange of the session. *)
Lemma second_exchange_counts_one :
  let env := sample_env (Ok (mk_provider_response [TextBlock "hello"] 9 3)) in
  let again :=
    mk_request "and again" (Some (uuid4 env)) "claude-3-sonnet-20240229" 1000 in
  let w1 := snd (post_chat env sample_request sample_http initial_world) in
  let w2 := snd (post_chat env again sample_http w1) in
  map UserSession.total_messages (user_sessions (db w2)) = [1].
Proof. vm_compute. reflexivity. Qed.

(** ** C7: persistence failures stay local *)

Lemma post_chat_answer env request http w :
  fst (post_chat env request http w)
  = match fst (chat_with_claude env request http
                 (set_background_tasks [] (set_pending [] w))) with
    | Ok body => Response200 body
    | Raise (HTTPException status_code detail) => JSONResponse status_code detail
    | Raise _ =>
        JSONResponse 500 (DetailError "Internal server error" "general_error" None)
    end.
Proof.
  unfold post_chat.
  destruct (chat_with_claude env request http _) as [[body | e] w1]; simpl.
  - reflexivity.
  - destruct e; reflexivity.
Qed.

(** The handler makes one round trip (the history query); what the storage
    engine does after it has no say in the handler's answer. *)
Lemma chat_answer_ignores_later_faults env request http w f fs fs' :
  fst (chat_with_claude env request http (set_faults (f :: fs) w))
  = fst (chat_with_claude env request http (set_faults (f :: fs') w)).
Proof.
  unfold chat_with_claude, rate_limit_check, try_except, chat_body, chat_failed,
    query_history, round_trip, add_task, logger_log, modify, get, ret, raise,
    mbind, M_bind, bind.
  simpl.
  destruct (RateLimiter.rate_limit_check _ _ _ _ _) as [[| ra |] s1]; simpl;
    try reflexivity.
  destruct f as [msg |]; simpl; [reflexivity |].
  rewrite !call_claude_run. simpl.
  destruct (anthropic_client env _) as [r | e]; simpl.
  - destruct (resp_content r) as [|[t|] rest]; reflexivity.
  - destruct e; reflexivity.
Qed.

(** C7. A queued persistence task (the conversation insert or the session
    upsert) never raises: when one of its round trips to the storage engine
    fails, or the engine rejects the write (a CHECK constraint of the
    table), the failure is logged, the transaction is rolled back and the
    tables are as before; otherwise its change is committed. The answer of
    [POST /chat] is fixed by the handler before the tasks run, and is the
    same whatever the storage engine does after the handler's own query. *)
Theorem persistence_failures_are_swallowed :
  (forall now t w,
      let r := run_task now t w in
      fst r = Ok tt
      /\ pending (snd r) = []
      /\ (if meets_fault (task_round_trips t) w
             || negb (forallb accepted (pending w ++ [task_change now t (db w)]))
          then db (snd r) = db w
               /\ exists text cause,
                   logger (snd r) = logger w ++ [LogError text cause]
          else db (snd r)
               = fold_left apply_op (pending w ++ [task_change now t (db w)]) (db w)
               /\ logger (snd r) = logger w))
  /\ (forall now ts w, fst (run_tasks now ts w) = Ok tt)
  /\ (forall env request http w,
        fst (post_chat env request http w)
        = match fst (chat_with_claude env request http
                       (set_background_tasks [] (set_pending [] w))) with
          | Ok body => Response200 body
          | Raise (HTTPException status_code detail) =>
              JSONResponse status_code detail
          | Raise _ =>
              JSONResponse 500
                (DetailError "Internal server error" "general_error" None)
          end)
  /\ (forall env request http w f fs fs',
        fst (post_chat env request http (set_faults (f :: fs) w))
        = fst (post_chat env request http (set_faults (f :: fs') w))).
Proof.
  split; [| split; [| split]].
  - intros now t w. apply run_task_spec.
  - intros now ts w. now rewrite run_tasks_spec.
  - intros. apply post_chat_answer.
  - intros env request http w f fs fs'. rewrite !post_chat_answer.
    change (set_background_tasks [] (set_pending [] (set_faults (f :: fs) w)))
      with (set_faults (f :: fs) (set_background_tasks [] (set_pending [] w))).
    change (set_background_tasks [] (set_pending [] (set_faults (f :: fs') w)))
      with (set_faults (f :: fs') (set_background_tasks [] (set_pending [] w))).
    now rewrite (chat_answer_ignores_later_faults env request http _ f fs fs').
Qed.

(** A commit that fails after a successful exchange: the answer is the
    success, the conversation row is lost, the session row is written. *)
Lemma commit_failure_keeps_the_answer :
  let env := sample_env (Ok (mk_provider_response [TextBlock "hello"] 9 3)) in
  let w := set_faults [None; Some "disk I/O error"%string] initial_world in
  fst (post_chat env sample_request sample_http w)
  = fst (post_chat env sample_request sample_http initial_world)
  /\ conversation_logs (db (snd (post_chat env sample_request sample_http w))) = []
  /\ length (user_sessions (db (snd (post_chat env sample_request sample_http w))))
     = 1%nat
  /\ logger (snd (post_chat env sample_request sample_http w))
     = [LogError "Failed to log conversation" "disk I/O error"].
Proof. repeat split; vm_compute; reflexivity. Qed.

(** ** C4: the prompt sent to the provider *)

Section History.

Lemma insert_desc_perm c l : Permutation (insert_desc c l) (c :: l).
Proof.
  induction l as [|x l IH]; simpl; [reflexivity |].
  destruct (_ <? _); [reflexivity |].
  rewrite IH. apply perm_swap.
Qed.

Lemma order_by_timestamp_desc_perm l : Permutation (order_by_timestamp_desc l) l.
Proof.
  induction l as [|x l IH]; simpl; [reflexivity |].
  rewrite insert_desc_perm. now constructor.
Qed.

Lemma insert_desc_sorted c l :
  StronglySorted newest_first l -> StronglySorted newest_first (insert_desc c l).
Proof.
  induction 1 as [|x l Hs IH Hx]; simpl.
  - repeat constructor.
  - destruct (Z.ltb_spec (ConversationLog.timestamp x) (ConversationLog.timestamp c)).
    + constructor; [now constructor |].
      constructor; [unfold newest_first; lia |].
      eapply List.Forall_impl; [| exact Hx]. unfold newest_first. intros a Ha. lia.
    + constructor; [exact IH |].
      apply (Permutation_Forall (Permutation_sym (insert_desc_perm c l))).
      constructor; [unfold newest_first; lia | exact Hx].
Qed.

Lemma order_by_timestamp_desc_sorted l :
  StronglySorted newest_first (order_by_timestamp_desc l).
Proof.
  induction l as [|x l IH]; simpl; [constructor | now apply insert_desc_sorted].
Qed.

Lemma sorted_app_cross {A} (R : A -> A -> Prop) (l1 l2 : list A) :
  StronglySorted R (l1 ++ l2) ->
  forall a b, In a l1 -> In b l2 -> R a b.
Proof.
  induction l1 as [|x l1 IH]; simpl; intros Hs a b Ha Hb; [destruct Ha |].
  apply StronglySorted_inv in Hs as [Hs Hx].
  destruct Ha as [<- | Ha].
  - rewrite List.Forall_forall in Hx. apply Hx, in_or_app. now right.
  - now apply IH.
Qed.

Lemma sorted_app_l {A} (R : A -> A -> Prop) (l1 l2 : list A) :
  StronglySorted R (l1 ++ l2) -> StronglySorted R l1.
Proof.
  induction l1 as [|x l1 IH]; simpl; intros Hs; [constructor |].
  apply StronglySorted_inv in Hs as [Hs Hx].
  constructor; [now apply IH |].
  rewrite List.Forall_forall in *. intros y Hy. apply Hx, in_or_app. now left.
Qed.

Lemma sorted_rev l :
  StronglySorted newest_first l -> StronglySorted oldest_first (rev l).
Proof.
  induction 1 as [|x l Hs IH Hx]; simpl; [constructor |].
  assert (forall l', StronglySorted oldest_first l' ->
                     Forall (fun a => oldest_first a x) l' ->
                     StronglySorted oldest_first (l' ++ [x])) as Hsnoc.
  { induction 1 as [|y l' Hs' IH' Hy]; simpl; intros Hall.
    - repeat constructor.
    - apply Forall_cons_iff in Hall as [Hyx Hall].
      constructor; [now apply IH' |].
      apply Forall_app. split; [exact Hy | now constructor]. }
  apply Hsnoc; [exact IH |].
  apply Forall_rev. exact Hx.
Qed.

Lemma build_messages_roles recent current :
  map msg_role (build_messages recent current)
  = concat (repeat [user; assistant] (length recent)) ++ [user].
Proof.
  unfold build_messages. rewrite map_app. simpl. f_equal.
  rewrite <- (length_rev recent).
  induction (rev recent) as [|c l IH]; simpl; [reflexivity | now rewrite IH].
Qed.

End History.

Lemma chat_with_claude_sent env request http w :
  permitted env http w ->
  no_fault w ->
  sent (snd (chat_with_claude env request http w))
  = sent w ++ [call_for env request (db w)].
Proof.
  intros Hp Hq. rewrite chat_with_claude_run by assumption. simpl.
  rewrite call_claude_run. simpl. unfold call_for.
  destruct (anthropic_client env _) as [r | e]; simpl.
  - destruct (resp_content r) as [|[t|] rest]; reflexivity.
  - reflexivity.
Qed.

(** C4. The one call the handler sends carries the messages built from
    [recent], the successful rows of the session of the exchange cut to the
    10 most recent: [recent] has [min 10 n] rows out of the [n] rows of the
    table that carry the session's id and [success = true], none of the
    rows left out is more recent than one kept, the rows are laid out
    oldest first as a user message followed by an assistant message each,
    and the new user message closes the list. With no such row the list is
    the new message alone. *)
Theorem prompt_is_recent_history (env : environment) (request : ChatRequest)
    (http : http_request) (w : world) (sid : string)
    (Hsid : requested_session env request sid)
    (Hpermit : permitted env http w)
    (Hquery : no_fault w) :
  let history :=
    List.filter
      (fun c => String.eqb (ConversationLog.session_id c) sid
                && ConversationLog.success c)
      (conversation_logs (db w)) in
  exists recent older,
    let messages :=
      flat_map (fun conv =>
                  [mk_message user (ConversationLog.user_message conv);
                   mk_message assistant (ConversationLog.assistant_response conv)])
        (rev recent)
      ++ [mk_message user (message request)] in
    sent (snd (chat_with_claude env request http w))
    = sent w ++ [mk_call (model request) (max_tokens request) messages system_prompt]
    /\ Permutation (recent ++ older) history
    /\ length recent = Nat.min 10 (length history)
    /\ StronglySorted oldest_first (rev recent)
    /\ (forall a b, In a recent -> In b older -> oldest_first b a)
    /\ map msg_role messages
       = concat (repeat [user; assistant] (length recent)) ++ [user]
    /\ (history = [] -> messages = [mk_message user (message request)]).
Proof.
  intros history.
  pose proof (requested_session_of _ _ _ Hsid) as Esid.
  change history
    with (List.filter (successful_of sid) (conversation_logs (db w))).
  clear history.
  set (history := List.filter (successful_of sid) (conversation_logs (db w))).
  set (sorted := order_by_timestamp_desc history).
  exists (firstn 10 sorted), (skipn 10 sorted).
  assert (Hsorted : StronglySorted newest_first
                      (firstn 10 sorted ++ skipn 10 sorted)).
  { rewrite firstn_skipn. apply order_by_timestamp_desc_sorted. }
  assert (Hlen : length sorted = length history).
  { apply Permutation_length, order_by_timestamp_desc_perm. }
  repeat split.
  - rewrite chat_with_claude_sent by assumption.
    unfold call_for. rewrite Esid. reflexivity.
  - rewrite firstn_skipn. apply order_by_timestamp_desc_perm.
  - rewrite length_firstn, Hlen. reflexivity.
  - apply sorted_rev. eapply sorted_app_l. exact Hsorted.
  - intros a b Ha Hb. exact (sorted_app_cross _ _ _ Hsorted a b Ha Hb).
  - apply (build_messages_roles (firstn 10 sorted) (message request)).
  - intros Hnil. subst sorted. rewrite Hnil. reflexivity.
Qed.

(** A thirteenth message in session "s-1" of the sample tables: ten of its
    twelve successful exchanges go into the prompt. *)
Lemma prompt_is_recent_history_witness :
  let env := sample_env (Ok (mk_provider_response [TextBlock "hello"] 9 3)) in
  let request :=
    mk_request "and then?" (Some "s-1"%string) "claude-3-sonnet-20240229" 1000 in
  exists recent older,
    sent (snd (chat_with_claude env request sample_http sample_history))
    = [mk_call "claude-3-sonnet-20240229" 1000
         (flat_map (fun conv =>
                      [mk_message user (ConversationLog.user_message conv);
                       mk_message assistant (ConversationLog.assistant_response conv)])
            (rev recent)
          ++ [mk_message user "and then?"])
         system_prompt]
    /\ length recent = 10%nat
    /\ length (recent ++ older) = 12%nat.
Proof.
  intros env request.
  assert (requested_session env request "s-1") as Hr by reflexivity.
  assert (permitted env sample_http sample_history) as Hp by (vm_compute; reflexivity).
  assert (no_fault sample_history) as Hq by exact I.
  destruct (prompt_is_recent_history env request sample_http sample_history
              "s-1"%string Hr Hp Hq)
    as (recent & older & Hsent & Hperm & Hlen & _).
  exists recent, older. split; [exact Hsent | split; [exact Hlen |]].
  apply Permutation_length in Hperm. exact Hperm.
Defined.

(** The prompt of that call: the exchanges 3 to 12, oldest first, and the
    new message; the two oldest exchanges, the failed one and the one of
    the other session are not in it. *)
Example prompt_of_sample_history :
  let env := sample_env (Ok (mk_provider_response [TextBlock "hello"] 9 3)) in
  let request :=
    mk_request "and then?" (Some "s-1"%string) "claude-3-sonnet-20240229" 1000 in
  map (fun c => map content (call_messages c))
    (sent (snd (chat_with_claude env request sample_http sample_history)))
  = [["c?"; "C!"; "d?"; "D!"; "e?"; "E!"; "f?"; "F!"; "g?"; "G!"; "h?"; "H!";
      "i?"; "I!"; "j?"; "J!"; "k?"; "K!"; "l?"; "L!"; "and then?"]]%string.
Proof. vm_compute. reflexivity. Qed.

(** ** C6: the retention sweep *)

Ltac run_sweep :=
  unfold cleanup_old_data, collect_system_metrics, with_session, delete_metrics_before,
    delete_errors_before, db_add, db_commit, logger_log, round_trip, try_except,
    modify, get, ret, mbind, M_bind, bind.

(** What a sweep that meets no storage failure leaves in the tables. *)
Lemma cleanup_old_data_db now w :
  meets_fault 3 w = false ->
  db (snd (cleanup_old_data now w))
  = mk_database (conversation_logs (db w)) (user_sessions (db w))
      (List.filter (fun m => negb (SystemMetrics.timestamp m <? now - timedelta_days 30))
         (system_metrics (db w)))
      (List.filter (fun e => negb (ErrorLog.timestamp e <? now - timedelta_days 30))
         (error_logs (db w))).
Proof.
  unfold meets_fault. run_sweep.
  destruct w as [rls d p lg bt sn [|[m1|] [|[m2|] [|[m3|] rest]]]]; simpl;
    intros H; try discriminate; reflexivity.
Qed.

(** Whatever the storage engine does, a sweep touches neither the
    conversation rows nor the session rows. *)
Lemma cleanup_old_data_frame now w :
  conversation_logs (db (snd (cleanup_old_data now w))) = conversation_logs (db w)
  /\ user_sessions (db (snd (cleanup_old_data now w))) = user_sessions (db w).
Proof.
  run_sweep.
  destruct w as [rls d p lg bt sn [|[m1|] [|[m2|] [|[m3|] rest]]]]; simpl;
    split; reflexivity.
Qed.

(** C6. A sweep that meets no storage failure leaves, of the metric rows
    and of the error rows, exactly those whose timestamp is not before
    [now - 30 days]: a row of 31 days ago goes, a row of 29 days ago stays.
    And no sweep, failing or not, changes the conversation rows or the
    session rows. *)
Theorem retention_sweep (now : datetime) (w : world)
    (Hstorage : meets_fault 3 w = false) :
  let d' := db (snd (cleanup_old_data now w)) in
  (forall m, In m (system_metrics d')
             <-> In m (system_metrics (db w))
                 /\ now - timedelta_days 30 <= SystemMetrics.timestamp m)
  /\ (forall e, In e (error_logs d')
                <-> In e (error_logs (db w))
                    /\ now - timedelta_days 30 <= ErrorLog.timestamp e)
  /\ (forall m, In m (system_metrics (db w)) ->
                SystemMetrics.timestamp m = now - timedelta_days 31 ->
                ~ In m (system_metrics d'))
  /\ (forall m, In m (system_metrics (db w)) ->
                SystemMetrics.timestamp m = now - timedelta_days 29 ->
                In m (system_metrics d'))
  /\ (forall now0 w0,
        conversation_logs (db (snd (cleanup_old_data now0 w0)))
        = conversation_logs (db w0)
        /\ user_sessions (db (snd (cleanup_old_data now0 w0)))
           = user_sessions (db w0)).
Proof.
  intros d'. subst d'. rewrite (cleanup_old_data_db now w Hstorage). simpl.
  assert (Hm : forall m,
             In m (List.filter
                     (fun m => negb (SystemMetrics.timestamp m <? now - timedelta_days 30))
                     (system_metrics (db w)))
             <-> In m (system_metrics (db w))
                 /\ now - timedelta_days 30 <= SystemMetrics.timestamp m).
  { intros m. rewrite List.filter_In, negb_true_iff, Z.ltb_ge. reflexivity. }
  split; [exact Hm | split; [| split; [| split]]].
  - intros e. rewrite List.filter_In, negb_true_iff, Z.ltb_ge. reflexivity.
  - intros m Hin Hts Hkept. apply Hm in Hkept as [_ Hle].
    unfold timedelta_days in *. lia.
  - intros m Hin Hts. apply Hm. split; [exact Hin |].
    unfold timedelta_days in *. lia.
  - intros now0 w0. apply cleanup_old_data_frame.
Qed.

Lemma retention_sweep_witness :
  ~ In (sample_metric (sample_day 100 - timedelta_days 31))
      (system_metrics (db (snd (cleanup_old_data (sample_day 100) sample_tables))))
  /\ In (sample_metric (sample_day 100 - timedelta_days 29))
       (system_metrics (db (snd (cleanup_old_data (sample_day 100) sample_tables)))).
Proof.
  assert (meets_fault 3 sample_tables = false) as H by reflexivity.
  destruct (retention_sweep (sample_day 100) sample_tables H)
    as (_ & _ & Hold & Hyoung & _).
  split.
  - apply Hold; [simpl; now left | reflexivity].
  - apply Hyoung; [simpl; right; now left | reflexivity].
Defined.

(** ** C10: the two session endpoints on an unknown session *)

Lemma filter_none {A} (f : A -> bool) (l : list A) :
  (forall x, In x l -> f x = false) -> List.filter f l = [].
Proof.
  induction l as [|x l IH]; simpl; intros H; [reflexivity |].
  rewrite (H x) by now left. apply IH. intros y Hy. apply H. now right.
Qed.

Lemma find_none {A} (f : A -> bool) (l : list A) :
  (forall x, In x l -> f x = false) -> List.find f l = None.
Proof.
  induction l as [|x l IH]; simpl; intros H; [reflexivity |].
  rewrite (H x) by now left. apply IH. intros y Hy. apply H. now right.
Qed.



(** ** C9: what the session upsert leaves alone *)

Lemma aggregates_kept_refl d : aggregates_kept d d.
Proof. exists []. simpl. rewrite app_nil_r. split; [reflexivity | constructor]. Qed.

Lemma aggregates_kept_same d d' :
  user_sessions d' = user_sessions d -> aggregates_kept d d'.
Proof.
  intros H. exists []. rewrite H. simpl. rewrite app_nil_r.
  split; [reflexivity | constructor].
Qed.

Lemma aggregates_kept_trans d1 d2 d3 :
  aggregates_kept d1 d2 -> aggregates_kept d2 d3 -> aggregates_kept d1 d3.
Proof.
  intros (a1 & H1 & Z1) (a2 & H2 & Z2). exists (a1 ++ a2). split.
  - rewrite H2, H1, map_app, app_assoc. reflexivity.
  - apply Forall_app. now split.
Qed.

Lemma update_first_aggregates sid f rows :
  (forall s, aggregates (f s) = aggregates s) ->
  map aggregates (update_first sid f rows) = map aggregates rows.
Proof.
  intros Hf. induction rows as [|s rows IH]; simpl; [reflexivity |].
  destruct (String.eqb _ _); simpl; [now rewrite Hf | now rewrite IH].
Qed.

Lemma update_first_length sid f rows :
  length (update_first sid f rows) = length rows.
Proof.
  induction rows as [|s rows IH]; simpl; [reflexivity |].
  destruct (String.eqb _ _); simpl; [reflexivity | now rewrite IH].
Qed.

Lemma update_first_find sid f rows s :
  (forall r, UserSession.session_uuid (f r) = UserSession.session_uuid r) ->
  List.find (fun r => String.eqb (UserSession.session_uuid r) sid) rows = Some s ->
  List.find (fun r => String.eqb (UserSession.session_uuid r) sid)
    (update_first sid f rows) = Some (f s).
Proof.
  intros Hf. induction rows as [|r rows IH]; simpl; [discriminate |].
  destruct (String.eqb (UserSession.session_uuid r) sid) eqn:E; simpl.
  - intros [= <-]. now rewrite Hf, E.
  - rewrite E. exact IH.
Qed.

Lemma update_first_find_other sid sid' f rows :
  (forall r, UserSession.session_uuid (f r) = UserSession.session_uuid r) ->
  sid' <> sid ->
  List.find (fun r => String.eqb (UserSession.session_uuid r) sid')
    (update_first sid f rows)
  = List.find (fun r => String.eqb (UserSession.session_uuid r) sid') rows.
Proof.
  intros Hf Hne. induction rows as [|r rows IH]; simpl; [reflexivity |].
  destruct (String.eqb (UserSession.session_uuid r) sid) eqn:E; simpl.
  - rewrite Hf. apply String.eqb_eq in E.
    assert (String.eqb (UserSession.session_uuid r) sid' = false) as ->
      by (apply String.eqb_neq; congruence).
    reflexivity.
  - destruct (String.eqb (UserSession.session_uuid r) sid'); [reflexivity | exact IH].
Qed.

(** A change queued by a task keeps the aggregates. *)
Lemma task_change_keeps now t d :
  aggregates_kept d (apply_op d (task_change now t d)).
Proof.
  destruct t as [sid um ar tu pt mu ok em et info | sid info]; simpl.
  - now apply aggregates_kept_same.
  - unfold session_change. destruct (select_session sid d) as [s |]; simpl.
    + exists []. simpl. rewrite app_nil_r. split; [| constructor].
      now apply update_first_aggregates.
    + exists [new_session now sid info]. simpl. rewrite map_app. simpl.
      split; [reflexivity |]. repeat constructor.
Qed.

Lemma run_task_keeps now t w :
  pending w = [] ->
  pending (snd (run_task now t w)) = []
  /\ aggregates_kept (db w) (db (snd (run_task now t w))).
Proof.
  intros Hp. destruct (run_task_spec now t w) as (_ & Hpend & Hdb).
  split; [exact Hpend |].
  destruct (_ || _).
  - destruct Hdb as [-> _]. apply aggregates_kept_refl.
  - destruct Hdb as [-> _]. rewrite Hp. simpl. apply task_change_keeps.
Qed.

Lemma run_tasks_keep now ts :
  forall w,
    pending w = [] ->
    aggregates_kept (db w)
      (db (fold_left (fun w' t => snd (run_task now t w')) ts w)).
Proof.
  induction ts as [|t ts IH]; intros w Hp; simpl; [apply aggregates_kept_refl |].
  destruct (run_task_keeps now t w Hp) as [Hp' Hk].
  eapply aggregates_kept_trans; [exact Hk | now apply IH].
Qed.

(** The handler reads the tables; it writes nothing to them and leaves the
    session's unit of work as it found it. *)
Lemma chat_with_claude_reads_only env request http w :
  db (snd (chat_with_claude env request http w)) = db w
  /\ pending (snd (chat_with_claude env request http w)) = pending w.
Proof.
  unfold chat_with_claude, rate_limit_check, try_except, chat_body, chat_failed,
    query_history, round_trip, add_task, logger_log, modify, get, ret, raise,
    mbind, M_bind, bind.
  destruct w as [rls d p lg bt sn fs]. simpl.
  destruct (RateLimiter.rate_limit_check _ _ _ _ _) as [[| ra |] s1]; simpl;
    try (split; reflexivity).
  destruct fs as [|[msg|] rest]; simpl; try (split; reflexivity);
    rewrite !call_claude_run; simpl;
    (destruct (anthropic_client env _) as [r | e]; simpl;
     [destruct (resp_content r) as [|[t|] rest']; split; reflexivity
     | destruct e; split; reflexivity]).
Qed.

Lemma post_chat_keeps env request http w :
  aggregates_kept (db w) (db (snd (post_chat env request http w))).
Proof.
  unfold post_chat.
  pose proof (chat_with_claude_reads_only env request http
                (set_background_tasks [] (set_pending [] w))) as [Hdb Hp].
  destruct (chat_with_claude env request http _) as [[body | e] w1]; simpl in *.
  - rewrite run_tasks_spec. simpl.
    rewrite <- Hdb. now apply run_tasks_keep.
  - destruct e; simpl; rewrite Hdb; apply aggregates_kept_refl.
Qed.

Lemma step_keeps w o : aggregates_kept (db w) (db (step w o)).
Proof.
  destruct o as [env request http | sid | sid limit | t0 now p | now | oracle]; simpl.
  - apply post_chat_keeps.
  - apply aggregates_kept_same.
    unfold with_session, get_session_info, query_session, round_trip, get, ret, raise,
      mbind, M_bind, bind.
    destruct w as [rls d p lg bt sn [|[m|] rest]]; simpl; try reflexivity;
      destruct (select_session sid d); reflexivity.
  - apply aggregates_kept_same.
    unfold with_session, get_conversation_history, query_history, round_trip, get, ret,
      mbind, M_bind, bind.
    destruct w as [rls d p lg bt sn [|[m|] rest]]; reflexivity.
  - apply aggregates_kept_same. run_sweep.
    destruct w as [rls d q lg bt sn [|[m|] rest]]; reflexivity.
  - apply aggregates_kept_same. apply cleanup_old_data_frame.
  - apply aggregates_kept_refl.
Qed.

Lemma run_keeps ops :
  forall w, aggregates_kept (db w) (db (fold_left step ops w)).
Proof.
  induction ops as [|o ops IH]; intros w; simpl; [apply aggregates_kept_refl |].
  eapply aggregates_kept_trans; [apply step_keeps | apply IH].
Qed.

(** C9 (as the code has it). A session upsert that finds the session row and
    meets no storage failure sets [last_activity], adds 1 to
    [total_messages], and, through the column's [onupdate], refreshes
    [updated_at]; every other column of that row, and every other row, is as
    before. No operation of the system changes [total_tokens],
    [total_processing_time], [total_errors] or [avg_response_time] of a
    session row, and from a fresh process on they are all zero. *)
Theorem session_upsert_frame (now : datetime) (session_id : string)
    (info : client_info) (w : world) (s : UserSession.t)
    (Hfound : select_session session_id (db w) = Some s)
    (Hfresh : pending w = [])
    (Hstorage : meets_fault 2 w = false) :
  let d' := db (snd (update_session_stats now session_id info w)) in
  (exists s',
      select_session session_id d' = Some s'
      /\ UserSession.last_activity s' = now
      /\ UserSession.total_messages s' = UserSession.total_messages s + 1
      /\ UserSession.updated_at s' = now
      /\ same_elsewhere s s')
  /\ length (user_sessions d') = length (user_sessions (db w))
  /\ (forall other, other <> session_id ->
                    select_session other d' = select_session other (db w))
  /\ (forall w0 o, aggregates_kept (db w0) (db (step w0 o)))
  /\ (forall ops,
        Forall zero_aggregates (user_sessions (db (fold_left step ops initial_world)))).
Proof.
  intros d'.
  assert (Hd : d' = apply_op (db w)
                      (TouchSession session_id now
                         (UserSession.total_messages s + 1) now)).
  { subst d'.
    destruct (run_task_spec now (UpdateSessionStatsTask session_id info) w)
      as (_ & _ & Hdb).
    simpl in Hdb. unfold session_change in Hdb.
    rewrite Hstorage, Hfresh, Hfound in Hdb. simpl in Hdb. destruct Hdb as [Hdb _].
    exact Hdb. }
  rewrite Hd. simpl.
  split; [| split; [| split; [| split]]].
  - exists (touch session_id now (UserSession.total_messages s + 1) now s).
    split.
    + unfold select_session in *. simpl.
      now apply update_first_find.
    + repeat split.
  - apply update_first_length.
  - intros other Hne. unfold select_session. simpl.
    now apply update_first_find_other.
  - apply step_keeps.
  - intros ops. destruct (run_keeps ops initial_world) as (added & Hmap & Hzero).
    simpl in Hmap.
    assert (forall l l' : list UserSession.t,
               map aggregates l = map aggregates l' ->
               Forall zero_aggregates l' -> Forall zero_aggregates l) as Htransfer.
    { induction l as [|a l IH]; intros [|b l'] Hm Hz; try discriminate;
        [constructor |].
      pose proof (f_equal (hd (aggregates a)) Hm) as Ha.
      pose proof (f_equal (@tl _) Hm) as Hl. simpl in Ha, Hl.
      apply Forall_cons_iff in Hz as [Hb Hz].
      constructor; [| now apply (IH l')].
      unfold zero_aggregates in *. now rewrite Ha. }
    exact (Htransfer _ _ Hmap Hzero).
Qed.

Lemma session_upsert_frame_witness :
  let info := get_client_info sample_http in
  let w1 := snd (update_session_stats 1000 "s-1" info initial_world) in
  exists s',
    select_session "s-1" (db (snd (update_session_stats 2000 "s-1" info w1))) = Some s'
    /\ UserSession.last_activity s' = 2000
    /\ UserSession.total_messages s' = 1
    /\ UserSession.updated_at s' = 2000.
Proof.
  intros info w1.
  assert (select_session "s-1" (db w1) = Some (new_session 1000 "s-1" info))
    as Hf by reflexivity.
  assert (pending w1 = []) as Hp by reflexivity.
  assert (meets_fault 2 w1 = false) as Hs by reflexivity.
  destruct (session_upsert_frame 2000 "s-1"%string info w1 _ Hf Hp Hs)
    as ((s' & H1 & H2 & H3 & H4 & _) & _).
  exists s'. repeat split; assumption.
Defined.

(** C9 as stated does not hold: a session row made at [1000] and upserted
    at [2000] has a third column changed, [updated_at]. *)
Lemma upsert_refreshes_updated_at :
  let info := get_client_info sample_http in
  let w1 := snd (update_session_stats 1000 "s-1" info initial_world) in
  let w2 := snd (update_session_stats 2000 "s-1" info w1) in
  map UserSession.updated_at (user_sessions (db w1)) = [1000]
  /\ map UserSession.updated_at (user_sessions (db w2)) = [2000]
  /\ map UserSession.last_activity (user_sessions (db w2)) = [2000]
  /\ map UserSession.total_messages (user_sessions (db w2)) = [1]
  /\ map UserSession.updated_at (user_sessions (db w1))
     <> map UserSession.updated_at (user_sessions (db w2)).
Proof.
  repeat split; try (vm_compute; reflexivity).
  vm_compute. discriminate.
Qed.

(** * Further properties of the code *)

(** ** The rate limiter: memory, retry hint, isolation *)

Section LimiterMore.

Variable max_requests : Z.
Variable window_seconds : Z.

Local Abbreviation check := (RateLimiter.rate_limit_check max_requests window_seconds).
Local Abbreviation cleaned := (RateLimiter.clean window_seconds).

Lemma check_stored_same k now s :
  RateLimiter.stored (snd (check k now s)) k
  = match fst (check k now s) with
    | RateLimiter.Permit => cleaned k now s ++ [now]
    | _ => cleaned k now s
    end.
Proof.
  unfold RateLimiter.rate_limit_check, RateLimiter.stored.
  destruct (_ <=? _); [destruct (py_min _) |]; simpl;
    now rewrite lookup_insert_eq.
Qed.

Lemma check_stored_other c k now s :
  c <> k ->
  RateLimiter.stored (snd (check c now s)) k = RateLimiter.stored s k.
Proof.
  intros Hne. unfold RateLimiter.stored.
  now rewrite RateLimiterFacts.rate_limit_check_other.
Qed.

Lemma check_permit_length k now s :
  fst (check k now s) = RateLimiter.Permit ->
  Z.of_nat (length (cleaned k now s)) < max_requests.
Proof.
  unfold RateLimiter.rate_limit_check.
  destruct (Z.leb_spec max_requests (Z.of_nat (length (cleaned k now s))));
    [destruct (py_min _); discriminate | intros _; assumption].
Qed.

Lemma check_deny_inv k now s r :
  fst (check k now s) = RateLimiter.Deny r ->
  exists oldest,
    In oldest (cleaned k now s)
    /\ (forall x, In x (cleaned k now s) -> (oldest <= x)%Q)
    /\ r = py_int (float_sub (float_of_int window_seconds) (float_sub now oldest))
    /\ max_requests <= Z.of_nat (length (cleaned k now s)).
Proof.
  unfold RateLimiter.rate_limit_check.
  destruct (Z.leb_spec max_requests (Z.of_nat (length (cleaned k now s))));
    [| discriminate].
  destruct (cleaned k now s) as [|a l] eqn:E; [discriminate |].
  destruct (py_min_least (a :: l)) as (oldest & Hmin & Hin & Hle); [discriminate |].
  rewrite Hmin. simpl. intros [= <-]. exists oldest. repeat split; assumption.
Qed.

Lemma cleaned_length_le k now s :
  (length (cleaned k now s) <= length (RateLimiter.stored s k))%nat.
Proof.
  rewrite RateLimiterFacts.clean_stored. apply RateLimiterFacts.filter_length_le.
Qed.

Lemma run_stored_bounded calls :
  forall s,
    (forall k, Z.of_nat (length (RateLimiter.stored s k)) <= Z.max 0 max_requests) ->
    forall k,
      Z.of_nat (length (RateLimiter.stored
                          (snd (RateLimiter.run max_requests window_seconds calls s)) k))
      <= Z.max 0 max_requests.
Proof.
  induction calls as [|[c now] calls IH]; intros s Hs k; simpl; [apply Hs |].
  destruct (check c now s) as [o s1] eqn:E.
  destruct (RateLimiter.run max_requests window_seconds calls s1) as [os s2] eqn:Er.
  simpl. replace s2 with (snd (RateLimiter.run max_requests window_seconds calls s1))
    by now rewrite Er.
  apply IH. intros k'.
  replace s1 with (snd (check c now s)) by now rewrite E.
  destruct (decide (c = k')) as [-> | Hne].
  - rewrite check_stored_same.
    pose proof (cleaned_length_le k' now s) as Hle. specialize (Hs k').
    destruct (fst (check k' now s)) eqn:Eo; try lia.
    apply check_permit_length in Eo. rewrite length_app. simpl. lia.
  - rewrite check_stored_other by assumption. apply Hs.
Qed.

End LimiterMore.

(** X1. However many calls come in and whatever the clock reads, the
    sequence the limiter keeps for a client never holds more than
    [max_requests] readings (none at all for a limit below 1). *)
Theorem limiter_store_is_bounded (max_requests window_seconds : Z)
    (calls : list (string * Q)) (k : string) :
  Z.of_nat (length (RateLimiter.stored
                      (snd (RateLimiter.run max_requests window_seconds calls ∅)) k))
  <= Z.max 0 max_requests.
Proof.
  apply run_stored_bounded. intros k'.
  unfold RateLimiter.stored. rewrite lookup_empty. simpl. lia.
Qed.

Lemma py_int_floor (q : Q) : (0 <= q)%Q -> py_int q = Qfloor q.
Proof.
  destruct q as [n d]. unfold Qle, py_int, Qfloor. simpl. intros H.
  apply Z.quot_div_nonneg; lia.
Qed.

Lemma filter_drops_one {A} (f : A -> bool) (l : list A) (x : A) :
  In x l -> f x = false -> (length (List.filter f l) < length l)%nat.
Proof.
  induction l as [|a l IH]; simpl; [intros [] |].
  intros [<- | Hin] Hx.
  - rewrite Hx. pose proof (RateLimiterFacts.filter_length_le f l). lia.
  - specialize (IH Hin Hx). destruct (f a); simpl; lia.
Qed.

(** What a denial tells, for stored readings that are floats not ahead of
    the clock and a window that is a float: the reading the hint is
    computed from is in the window, and the hint is the floor of a float
    between 0 and the window. *)
Lemma deny_bounds (max_requests window_seconds : Z)
    (k : string) (now : Q) (s : gmap string (list Q)) (r : Z) :
  fst (RateLimiter.rate_limit_check max_requests window_seconds k now s)
  = RateLimiter.Deny r ->
  (forall x, In x (RateLimiter.stored s k) -> (x <= now)%Q) ->
  (forall x, In x (RateLimiter.stored s k) -> is_float x) ->
  window_seconds <= 2 ^ 53 ->
  exists oldest,
    In oldest (RateLimiter.clean window_seconds k now s)
    /\ is_float oldest
    /\ (float_of_int window_seconds == inject_Z window_seconds)%Q
    /\ 0 <= window_seconds
    /\ (0 <= now - oldest)%Q
    /\ (now - oldest <= inject_Z window_seconds)%Q
    /\ r = Qfloor (float_sub (float_of_int window_seconds) (float_sub now oldest))
    /\ (0 <= float_sub (float_of_int window_seconds) (float_sub now oldest))%Q
    /\ (float_sub (float_of_int window_seconds) (float_sub now oldest)
        <= inject_Z window_seconds)%Q.
Proof.
  intros Hdenied Hpast Hfloat Hwindow.
  destruct (check_deny_inv _ _ _ _ _ _ Hdenied) as (oldest & Hin & _ & -> & _).
  exists oldest. split; [exact Hin |].
  rewrite RateLimiterFacts.clean_stored in Hin.
  apply List.filter_In in Hin as [Hin Hnew].
  apply RateLimiterFacts.newer_spec in Hnew.
  unfold RateLimiter.cutoff, float_sub in Hnew.
  pose proof (Hpast _ Hin) as Hle. pose proof (Hfloat _ Hin) as Hfl.
  unfold is_float in Hfl.
  set (W' := float_of_int window_seconds) in *.
  assert (HA : (now - oldest <= W')%Q).
  { destruct (Qlt_le_dec W' (now - oldest)) as [Hlt | Hok]; [exfalso | exact Hok].
    assert (oldest <= now - W')%Q as H1 by lra.
    apply round_binary64_mono in H1. lra. }
  assert (HW0 : 0 <= window_seconds).
  { destruct (Z_lt_le_dec window_seconds 0) as [Hneg | Hok]; [exfalso | exact Hok].
    assert (inject_Z window_seconds < 0)%Q as Hq
      by (change 0%Q with (inject_Z 0); rewrite <- Zlt_Qlt; exact Hneg).
    apply (proj2 (round_binary64_sign _)) in Hq. fold (float_of_int window_seconds) in Hq.
    fold W' in Hq. lra. }
  assert (HW : (W' == inject_Z window_seconds)%Q).
  { apply round_binary64_Z. lia. }
  assert (Hd0 : (0 <= round_binary64 (now - oldest))%Q).
  { rewrite <- (round_binary64_0 0%Q) by reflexivity.
    apply round_binary64_mono. lra. }
  assert (HdW : (round_binary64 (now - oldest) <= inject_Z window_seconds)%Q).
  { rewrite <- HW. unfold W', float_of_int.
    apply round_binary64_mono. fold (float_of_int window_seconds). fold W'. lra. }
  assert (Hx0 : (0 <= round_binary64 (W' - round_binary64 (now - oldest)))%Q).
  { rewrite <- (round_binary64_0 0%Q) by reflexivity.
    apply round_binary64_mono. lra. }
  assert (HxW : (round_binary64 (W' - round_binary64 (now - oldest))
                 <= inject_Z window_seconds)%Q).
  { rewrite <- HW. unfold W' at 2. unfold float_of_int.
    apply round_binary64_mono. lra. }
  repeat split; try assumption; try lra.
  unfold float_sub. now apply py_int_floor.
Qed.

(** X2. When the readings stored for the client are floats not ahead of the
    clock, and the window is one float arithmetic is exact on (no more than
    [2^53] seconds), the [retry_after] of a denial lies between 0 and
    [window_seconds]. *)
Theorem retry_after_within_window (max_requests window_seconds : Z)
    (k : string) (now : Q) (s : gmap string (list Q)) (r : Z)
    (Hdenied : fst (RateLimiter.rate_limit_check max_requests window_seconds k now s)
               = RateLimiter.Deny r)
    (Hpast : forall x, In x (RateLimiter.stored s k) -> (x <= now)%Q)
    (Hfloat : forall x, In x (RateLimiter.stored s k) -> is_float x)
    (Hwindow : window_seconds <= 2 ^ 53) :
  0 <= r <= window_seconds.
Proof.
  destruct (deny_bounds _ _ _ _ _ _ Hdenied Hpast Hfloat Hwindow)
    as (oldest & _ & _ & _ & _ & _ & _ & -> & Hx0 & HxW).
  split.
  - change 0 with (Qfloor 0). now apply Qfloor_resp_le.
  - apply Z.le_trans with (Qfloor (inject_Z window_seconds));
      [now apply Qfloor_resp_le | rewrite Qfloor_Z; lia].
Qed.

Lemma retry_after_within_window_witness :
  0 <= 9 <= 10.
Proof.
  assert (fst (RateLimiter.rate_limit_check 1 10 "c" (round_binary64 (11 # 10))
                 {["c"%string := [round_binary64 (1 # 10)]]})
          = RateLimiter.Deny 9) as H by (vm_compute; reflexivity).
  apply (retry_after_within_window 1 10 "c"%string (round_binary64 (11 # 10))
           {["c"%string := [round_binary64 (1 # 10)]]} 9 H).
  - intros x Hx. vm_compute in Hx. destruct Hx as [<- | []]. vm_compute. discriminate.
  - intros x Hx. vm_compute in Hx. destruct Hx as [<- | []]. vm_compute. reflexivity.
  - vm_compute. discriminate.
Defined.

(** X3. The retry hint can be relied on, one second added: after a denial
    with [retry_after = r] at [now], the next call of that client, coming at
    [now + r + 1] or later, is permitted. (A store that holds no more than
    the limit, as every store the limiter built does; stored readings that
    are floats not ahead of the clock; a window below [2^53] seconds.) *)
Theorem retry_after_is_honoured (max_requests window_seconds : Z)
    (k : string) (now t : Q) (s : gmap string (list Q)) (r : Z)
    (Hbound : Z.of_nat (length (RateLimiter.stored s k)) <= max_requests)
    (Hdenied : fst (RateLimiter.rate_limit_check max_requests window_seconds k now s)
               = RateLimiter.Deny r)
    (Hlater : (now + inject_Z r + 1 <= t)%Q)
    (Hpast : forall x, In x (RateLimiter.stored s k) -> (x <= now)%Q)
    (Hfloat : forall x, In x (RateLimiter.stored s k) -> is_float x)
    (Hwindow : window_seconds < 2 ^ 53) :
  fst (RateLimiter.rate_limit_check max_requests window_seconds k t
         (snd (RateLimiter.rate_limit_check max_requests window_seconds k now s)))
  = RateLimiter.Permit.
Proof.
  destruct (deny_bounds _ _ _ _ _ _ Hdenied Hpast Hfloat ltac:(lia))
    as (oldest & Hin & Hfl & HW & HW0 & Hd0 & HdW & Hr & Hx0 & HxW).
  set (s1 := snd (RateLimiter.rate_limit_check max_requests window_seconds k now s)).
  assert (Hs1 : RateLimiter.stored s1 k = RateLimiter.clean window_seconds k now s).
  { subst s1. rewrite check_stored_same, Hdenied. reflexivity. }
  assert (Hr0 : 0 <= r <= window_seconds).
  { subst r. split.
    - change 0 with (Qfloor 0). now apply Qfloor_resp_le.
    - apply Z.le_trans with (Qfloor (inject_Z window_seconds));
      [now apply Qfloor_resp_le | rewrite Qfloor_Z; lia]. }
  (* the exact distance to the reading exceeds [window_seconds - r - 1] *)
  assert (Hkey : (inject_Z (window_seconds - r - 1) < now - oldest)%Q).
  { destruct (Qlt_le_dec (inject_Z (window_seconds - r - 1)) (now - oldest))
      as [Hok | Hno]; [exact Hok | exfalso].
    pose proof (Qlt_floor (float_sub (float_of_int window_seconds) (float_sub now oldest)))
      as Hfloor.
    rewrite <- Hr in Hfloor.
    apply round_binary64_mono in Hno.
    rewrite (round_binary64_Z (window_seconds - r - 1)) in Hno by lia.
    fold (float_sub now oldest) in Hno.
    assert (inject_Z (r + 1)
            <= float_of_int window_seconds - float_sub now oldest)%Q as Hge.
    { rewrite HW. unfold Zminus in Hno. rewrite !inject_Z_plus, !inject_Z_opp in Hno.
      rewrite inject_Z_plus. lra. }
    apply round_binary64_mono in Hge.
    rewrite (round_binary64_Z (r + 1)) in Hge by lia.
    fold (float_sub (float_of_int window_seconds) (float_sub now oldest)) in Hge.
    lra. }
  assert (Hgone : RateLimiter.newer (RateLimiter.cutoff window_seconds t) oldest = false).
  { apply RateLimiterFacts.newer_false.
    unfold RateLimiter.cutoff, float_sub. unfold is_float in Hfl.
    rewrite <- Hfl. apply round_binary64_mono.
    unfold Zminus in Hkey. rewrite !inject_Z_plus, !inject_Z_opp in Hkey.
    change (inject_Z 1) with 1%Q in Hkey. lra. }
  assert (Hless : (length (RateLimiter.clean window_seconds k t s1)
                   < length (RateLimiter.clean window_seconds k now s))%nat).
  { rewrite (RateLimiterFacts.clean_stored window_seconds k t s1), Hs1.
    now apply (filter_drops_one _ _ oldest). }
  pose proof (cleaned_length_le window_seconds k now s) as Hle.
  unfold RateLimiter.rate_limit_check.
  destruct (Z.leb_spec max_requests
              (Z.of_nat (length (RateLimiter.clean window_seconds k t s1))));
    [lia | reflexivity].
Qed.

Lemma retry_after_is_honoured_witness :
  fst (RateLimiter.rate_limit_check 1 10 "c" (21 # 2)
         (snd (RateLimiter.rate_limit_check 1 10 "c" (1 # 2) {["c"%string := [0%Q]]})))
  = RateLimiter.Permit.
Proof.
  apply (retry_after_is_honoured 1 10 "c"%string (1 # 2) (21 # 2)
           {["c"%string := [0%Q]]} 9).
  - vm_compute. discriminate.
  - vm_compute. reflexivity.
  - unfold Qle. simpl. lia.
  - intros x Hx. vm_compute in Hx. destruct Hx as [<- | []]. vm_compute. discriminate.
  - intros x Hx. vm_compute in Hx. destruct Hx as [<- | []]. vm_compute. reflexivity.
  - vm_compute. reflexivity.
Defined.

(** The hint itself can fall short, being rounded down: the same client
    coming back after exactly [retry_after] seconds is denied once more. *)
Lemma retry_after_alone_can_fall_short :
  fst (RateLimiter.rate_limit_check 1 10 "c" ((1 # 2) + inject_Z 9)
         (snd (RateLimiter.rate_limit_check 1 10 "c" (1 # 2) {["c"%string := [0%Q]]})))
  = RateLimiter.Deny 0.
Proof. vm_compute. reflexivity. Qed.

(** X4. Clients do not weigh on each other: a call of one client changes
    neither what the limiter answers another client nor what it stores for
    that other client. *)
Theorem limiter_isolates_clients (max_requests window_seconds : Z)
    (c k : string) (t now : Q) (s : gmap string (list Q))
    (Hother : c <> k) :
  let s1 := snd (RateLimiter.rate_limit_check max_requests window_seconds c t s) in
  fst (RateLimiter.rate_limit_check max_requests window_seconds k now s1)
  = fst (RateLimiter.rate_limit_check max_requests window_seconds k now s)
  /\ snd (RateLimiter.rate_limit_check max_requests window_seconds k now s1) !! k
     = snd (RateLimiter.rate_limit_check max_requests window_seconds k now s) !! k.
Proof.
  intros s1.
  assert (Hc : RateLimiter.clean window_seconds k now s1
               = RateLimiter.clean window_seconds k now s).
  { unfold RateLimiter.clean. subst s1.
    now rewrite RateLimiterFacts.rate_limit_check_other. }
  unfold RateLimiter.rate_limit_check. rewrite Hc.
  destruct (_ <=? _); [destruct (py_min _) |]; simpl;
    rewrite ?lookup_insert_eq; split; reflexivity.
Qed.

Lemma limiter_isolates_clients_witness :
  fst (RateLimiter.rate_limit_check 1 10 "b" 1%Q
         (snd (RateLimiter.rate_limit_check 1 10 "a" 0%Q ∅)))
  = fst (RateLimiter.rate_limit_check 1 10 "b" 1%Q ∅).
Proof.
  assert ("a"%string <> "b"%string) as H by discriminate.
  exact (proj1 (limiter_isolates_clients 1 10 "a"%string "b"%string 0%Q 1%Q ∅ H)).
Defined.

(** ** [POST /chat]: what each way through the handler does *)

Ltac run_chat :=
  unfold post_chat, chat_with_claude, rate_limit_check, try_except, chat_body,
    chat_failed, query_history, round_trip, add_task, logger_log, modify, get,
    ret, raise, mbind, M_bind, bind.

(** X5. A request the limiter denies goes no further: the answer is the 429
    with the limit and the retry hint, no call is sent to the provider, no
    round trip is made to the storage engine, and the tables are as
    before. *)
Theorem rate_limited_request_reaches_nothing (env : environment)
    (request : ChatRequest) (http : http_request) (w : world) (r : Z)
    (Hdenied :
       fst (RateLimiter.rate_limit_check (RATE_LIMIT_REQUESTS env)
              (RATE_LIMIT_WINDOW env) (client_host http)
              (time_at_rate_limit env) (rate_limit_storage w))
       = RateLimiter.Deny r) :
  let w' := snd (post_chat env request http w) in
  fst (post_chat env request http w)
  = JSONResponse 429 (DetailRateLimit (RATE_LIMIT_REQUESTS env) r)
  /\ sent w' = sent w
  /\ faults w' = faults w
  /\ db w' = db w
  /\ pending w' = pending w.
Proof.
  run_chat. destruct w as [rls d p lg bt sn fs]. simpl in *.
  destruct (RateLimiter.rate_limit_check _ _ _ _ _) as [o s1]. simpl in Hdenied.
  subst o. simpl. repeat split.
Qed.

Lemma rate_limited_request_reaches_nothing_witness :
  fst (post_chat (sample_env (Ok (mk_provider_response [TextBlock "hello"] 9 3)))
         sample_request sample_http
         (set_rate_limit_storage
            {["203.0.113.7"%string := repeat (999 # 1)%Q 100]} initial_world))
  = JSONResponse 429 (DetailRateLimit 100 3599).
Proof.
  apply (rate_limited_request_reaches_nothing
           (sample_env (Ok (mk_provider_response [TextBlock "hello"] 9 3)))
           sample_request sample_http _ 3599).
  vm_compute. reflexivity.
Defined.

(** X6. The answers [POST /chat] can give: a 200 that is either a success
    or the failure body ([success = false], no text, no tokens,
    [general_error]), or an error of status 429, 500 or 503. *)
Theorem chat_answers (env : environment) (request : ChatRequest)
    (http : http_request) (w : world) :
  match fst (post_chat env request http w) with
  | Response200 body =>
      (success body = true /\ error body = None /\ error_type body = None
       /\ exists text, response body = Some text)
      \/ (success body = false /\ response body = None /\ tokens_used body = 0
          /\ error_type body = Some "general_error"%string)
  | JSONResponse status_code _ =>
      status_code = 429 \/ status_code = 500 \/ status_code = 503
  end.
Proof.
  rewrite post_chat_answer.
  unfold chat_with_claude, rate_limit_check, try_except, chat_body, chat_failed,
    query_history, round_trip, add_task, logger_log, modify, get, ret, raise,
    mbind, M_bind, bind.
  destruct w as [rls d p lg bt sn fs]. simpl.
  destruct (RateLimiter.rate_limit_check _ _ _ _ _) as [[| ra |] s1]; simpl;
    [| left; reflexivity | right; left; reflexivity].
  destruct fs as [|[msg|] rest]; simpl;
    try (right; repeat split; reflexivity);
    rewrite call_claude_run; simpl;
    (destruct (anthropic_client env _) as [r | e]; simpl;
     [destruct (resp_content r) as [|[t|] rest']; simpl;
      first [ left; repeat split; eexists; reflexivity
            | right; left; reflexivity ]
     | destruct e; simpl;
       first [ left; reflexivity | right; left; reflexivity
             | right; right; reflexivity ] ]).
Qed.



Lemma order_newest_head l row :
  (forall c, In c l -> ConversationLog.timestamp c < ConversationLog.timestamp row) ->
  order_by_timestamp_desc (l ++ [row]) = row :: order_by_timestamp_desc l.
Proof.
  induction l as [|x l IH]; intros H; simpl; [reflexivity |].
  rewrite IH by (intros c Hc; apply H; now right). simpl.
  specialize (H x (or_introl eq_refl)).
  destruct (Z.ltb_spec (ConversationLog.timestamp row) (ConversationLog.timestamp x));
    [lia | reflexivity].
Qed.

Lemma meets_fault_split a b w w' :
  faults w' = skipn a (faults w) ->
  meets_fault (a + b) w = false ->
  meets_fault a w = false /\ meets_fault b w' = false.
Proof.
  unfold meets_fault. intros ->. generalize (faults w). clear.
  induction a as [|a IH]; intros fs; simpl.
  - intros H. split; [reflexivity | exact H].
  - destruct fs as [|[m|] fs]; simpl.
    + rewrite firstn_nil. simpl. intros _. split; reflexivity.
    + discriminate.
    + apply IH.
Qed.

Lemma run_task_faults now t w :
  meets_fault (task_round_trips t) w = false ->
  faults (snd (run_task now t w)) = skipn (task_round_trips t) (faults w).
Proof.
  destruct t; unfold run_task, meets_fault, task_round_trips; run_monad.
  - destruct w as [rls d p lg bt sn [|[m|] rest]]; simpl; intros H;
      try discriminate; destruct (forallb accepted _); reflexivity.
  - destruct w as [rls d p lg bt sn [|[m|] [|[m'|] rest]]]; simpl; intros H;
      try discriminate; destruct (forallb accepted _); reflexivity.
Qed.

Lemma post_chat_ok env request http w body w1 :
  chat_with_claude env request http (set_background_tasks [] (set_pending [] w))
  = (Ok body, w1) ->
  fst (post_chat env request http w) = Response200 body
  /\ db (snd (post_chat env request http w))
     = db (fold_left (fun w' t => snd (run_task (utcnow env) t w'))
             (background_tasks w1) w1).
Proof.
  intros H. unfold post_chat. rewrite H. rewrite run_tasks_spec. split; reflexivity.
Qed.

Lemma chat_with_claude_ok env request http w r text :
  permitted env http w ->
  no_fault w ->
  anthropic_client env (call_for env request (db w)) = Ok r ->
  response_text r = Some text ->
  let res := chat_with_claude env request http w in
  let sid := session_id_of env request in
  let pt := float_sub (time_at_end env) (time_at_start env) in
  let tokens := input_tokens r + output_tokens r in
  fst res = Ok (mk_response true (Some text) sid tokens pt (model request) None None)
  /\ background_tasks (snd res)
     = background_tasks w
       ++ [LogConversationTask sid (message request) (Some text) tokens pt
             (model request) true None None (Some (get_client_info http));
           UpdateSessionStatsTask sid (get_client_info http)]
  /\ faults (snd res) = tail (faults w)
  /\ db (snd res) = db w
  /\ pending (snd res) = pending w.
Proof.
  intros Hp Hq Ha Ht res. subst res.
  rewrite chat_with_claude_run by assumption. simpl.
  rewrite call_claude_run. simpl. unfold call_for in Ha. rewrite Ha.
  unfold response_text in Ht.
  destruct (resp_content r) as [|[t|] rest']; try discriminate;
    injection Ht as <-; simpl; rewrite <- app_assoc; repeat split.
Qed.

(** X8. An exchange that succeeds, with the storage engine up for its four
    round trips: the caller gets the success body. If the token count and
    the processing time are not negative, one conversation row is appended,
    carrying the session of the exchange, the message, the text, the
    tokens, the time taken, the model, the client's address and agent; if
    one of them is negative the table rejects the row and the
    conversation table is as before. Either way the session row is created
    (counter at 0) or touched (counter plus one), and the metric and error
    rows are as before. And if the row was written and the clock has moved
    on since the session's earlier rows, it is the first one the history
    query of that session returns, for any limit of 1 or more. *)
Theorem successful_exchange_is_stored (env : environment) (request : ChatRequest)
    (http : http_request) (w : world) (r : provider_response) (text sid : string)
    (Hsid : requested_session env request sid)
    (Hpermit : permitted env http w)
    (Hstorage : meets_fault 4 w = false)
    (Hanswer : anthropic_client env (call_for env request (db w)) = Ok r)
    (Htext : response_text r = Some text) :
  let w' := snd (post_chat env request http w) in
  let pt := float_sub (time_at_end env) (time_at_start env) in
  let tokens := input_tokens r + output_tokens r in
  let row :=
    ConversationLog.mk sid (utcnow env) (message request) text tokens pt
      (model request) true None None (Some (client_host http))
      (Some (default "Unknown"%string (header_user_agent http))) (utcnow env) in
  let stored := (0 <=? tokens) && Qle_bool 0 pt in
  fst (post_chat env request http w)
  = Response200 (mk_response true (Some text) sid tokens pt (model request) None None)
  /\ conversation_logs (db w')
     = (if stored then conversation_logs (db w) ++ [row] else conversation_logs (db w))
  /\ (forall s, select_session sid (db w) = Some s ->
        length (user_sessions (db w')) = length (user_sessions (db w))
        /\ exists s',
             select_session sid (db w') = Some s'
             /\ UserSession.total_messages s' = UserSession.total_messages s + 1
             /\ UserSession.last_activity s' = utcnow env)
  /\ (select_session sid (db w) = None ->
        exists s',
          user_sessions (db w') = user_sessions (db w) ++ [s']
          /\ UserSession.session_uuid s' = sid
          /\ UserSession.total_messages s' = 0
          /\ UserSession.last_activity s' = utcnow env
          /\ UserSession.user_ip s' = Some (client_host http))
  /\ system_metrics (db w') = system_metrics (db w)
  /\ error_logs (db w') = error_logs (db w)
  /\ (stored = true ->
      (forall c, In c (conversation_logs (db w)) ->
                 ConversationLog.session_id c = sid ->
                 ConversationLog.success c = true ->
                 ConversationLog.timestamp c < utcnow env) ->
      forall limit, 1 <= limit ->
                    hd_error (select_history sid limit (db w')) = Some row).
Proof.
  intros w' pt tokens row stored.
  pose proof (requested_session_of _ _ _ Hsid) as Esid.
  set (info := get_client_info http).
  set (w0 := set_background_tasks [] (set_pending [] w)).
  assert (Hm : meets_fault 1 w0 = false
               /\ meets_fault 3 (set_faults (skipn 1 (faults w0)) w0) = false).
  { apply (meets_fault_split 1 3 w0); [reflexivity | exact Hstorage]. }
  destruct Hm as [Hm1 Hm3].
  assert (Hq : no_fault w0).
  { unfold meets_fault in Hm1. unfold no_fault.
    destruct (faults w0) as [|[m|] rest]; simpl in *; [exact I | discriminate | exact I]. }
  destruct (chat_with_claude env request http w0) as [res w1] eqn:E.
  pose proof (chat_with_claude_ok env request http w0 r text Hpermit Hq Hanswer Htext)
    as (Hres & Hbt & Hf & Hdb & Hpend).
  rewrite E, Esid in Hres, Hbt.
  rewrite E in Hf, Hdb, Hpend.
  cbn [fst snd] in Hres, Hbt, Hf, Hdb, Hpend.
  change (background_tasks w0) with (@nil task) in Hbt.
  change (pending w0) with (@nil pending_op) in Hpend.
  change (db w0) with (db w) in Hdb.
  subst res.
  destruct (post_chat_ok env request http w _ _ E) as [Hans Hdb'].
  split; [exact Hans |].
  fold w' in Hdb'. rewrite Hbt in Hdb'.
  pose (t1 := LogConversationTask sid (message request) (Some text) tokens pt
                (model request) true None None (Some info)).
  pose (t2 := UpdateSessionStatsTask sid info).
  pose (w2 := snd (run_task (utcnow env) t1 w1)).
  change (db w' = db (snd (run_task (utcnow env) t2 w2))) in Hdb'.
  (* the round trips of the two tasks go through *)
  assert (Hm1' : meets_fault 1 w1 = false /\ meets_fault 2 w2 = false).
  { assert (meets_fault 3 w1 = false) as H3.
    { unfold meets_fault in *. rewrite Hf. exact Hm3. }
    destruct (meets_fault_split 1 2 w1 (set_faults (skipn 1 (faults w1)) w1)
                eq_refl H3) as [Ha Hb].
    split; [exact Ha |].
    unfold meets_fault in *. subst w2.
    rewrite (run_task_faults (utcnow env) t1 w1 Ha). exact Hb. }
  destruct Hm1' as [Hf1 Hf2].
  (* the first task: the conversation row, if the table accepts it *)
  assert (Hw2 : pending w2 = []
                /\ db w2 = if stored then apply_op (db w) (AddConversation row)
                           else db w).
  { destruct (run_task_spec (utcnow env) t1 w1) as (_ & Hp2 & Hd2).
    fold w2 in Hp2, Hd2. split; [exact Hp2 |].
    cbn [task_round_trips t1] in Hd2. rewrite Hf1, Hpend, Hdb in Hd2.
    cbn [app forallb task_change t1 orb fold_left] in Hd2.
    change (accepted (AddConversation
                        (conversation_row (utcnow env) sid (message request)
                           (Some text) tokens pt (model request) true None None
                           (Some info))))
      with stored in Hd2.
    rewrite andb_true_r in Hd2.
    destruct stored; cbn [negb] in Hd2; destruct Hd2 as [Hd2 _]; exact Hd2. }
  destruct Hw2 as [Hp2 Hd2].
  assert (Hs2 : user_sessions (db w2) = user_sessions (db w)
                /\ system_metrics (db w2) = system_metrics (db w)
                /\ error_logs (db w2) = error_logs (db w)).
  { rewrite Hd2. destruct stored; repeat split. }
  destruct Hs2 as (Hus2 & Hsm2 & Her2).
  assert (Hsel2 : select_session sid (db w2) = select_session sid (db w)).
  { unfold select_session. now rewrite Hus2. }
  (* the second task: the session row *)
  assert (Hd3 : db w' = apply_op (db w2)
                          (session_change (utcnow env) sid info
                             (select_session sid (db w)))).
  { destruct (run_task_spec (utcnow env) t2 w2) as (_ & _ & Hd3).
    cbn [task_round_trips t2] in Hd3. rewrite Hf2, Hp2 in Hd3.
    cbn [app forallb task_change t2 orb fold_left] in Hd3.
    rewrite session_change_accepted in Hd3. cbn [andb negb] in Hd3.
    destruct Hd3 as [Hd3 _]. rewrite Hdb', Hd3, Hsel2. reflexivity. }
  assert (Hsess : forall d o,
             conversation_logs (apply_op d (session_change (utcnow env) sid info o))
             = conversation_logs d
             /\ system_metrics (apply_op d (session_change (utcnow env) sid info o))
                = system_metrics d
             /\ error_logs (apply_op d (session_change (utcnow env) sid info o))
                = error_logs d).
  { intros d [s |]; simpl; repeat split. }
  destruct (Hsess (db w2) (select_session sid (db w))) as (Hc & Hm & He).
  assert (Hlogs : conversation_logs (db w')
                  = if stored then conversation_logs (db w) ++ [row]
                    else conversation_logs (db w)).
  { rewrite Hd3, Hc, Hd2. destruct stored; reflexivity. }
  split; [exact Hlogs |].
  split; [| split; [| split; [| split]]].
  - intros s Hsel. rewrite Hd3, Hsel. simpl. rewrite Hus2. split.
    + apply update_first_length.
    + exists (touch sid (utcnow env) (UserSession.total_messages s + 1) (utcnow env) s).
      split; [| split; reflexivity].
      unfold select_session in *. simpl.
      now apply update_first_find.
  - intros Hsel. rewrite Hd3, Hsel. simpl. rewrite Hus2.
    exists (new_session (utcnow env) sid info). repeat split.
  - rewrite Hd3, Hm. exact Hsm2.
  - rewrite Hd3, He. exact Her2.
  - intros Hstored Hnew limit Hlimit.
    unfold select_history. rewrite Hlogs, Hstored.
    rewrite List.filter_app. simpl.
    assert (Hrow : successful_of sid row = true).
    { unfold successful_of, row. simpl. now rewrite String.eqb_refl. }
    rewrite Hrow, order_newest_head.
    + unfold sql_limit. destruct (Z.ltb_spec limit 0); [reflexivity |].
      destruct (Z.to_nat limit) eqn:El; [lia | reflexivity].
    + intros c Hc'. apply List.filter_In in Hc' as [Hin Hok].
      unfold successful_of in Hok. apply andb_prop in Hok as [Hs Hok].
      apply String.eqb_eq in Hs. now apply Hnew.
Qed.

(** [POST /chat {message: "hi"}] on a fresh process, the provider answering
    "hello" with 9 and 3 tokens, the clock reading 1000 and then 1001.5:
    the row written. *)
Lemma successful_exchange_is_stored_witness :
  let env := sample_env (Ok (mk_provider_response [TextBlock "hello"] 9 3)) in
  conversation_logs (db (snd (post_chat env sample_request sample_http initial_world)))
  = [ConversationLog.mk (uuid4 env) (utcnow env) "hi" "hello" 12 (3 # 2)
       "claude-3-sonnet-20240229" true None None (Some "203.0.113.7"%string)
       (Some "curl/8.0"%string) (utcnow env)].
Proof.
  intros env.
  assert (requested_session env sample_request (uuid4 env)) as Hr by reflexivity.
  assert (permitted env sample_http initial_world) as Hp by (vm_compute; reflexivity).
  assert (meets_fault 4 initial_world = false) as Hs by reflexivity.
  destruct (successful_exchange_is_stored env sample_request sample_http initial_world
              (mk_provider_response [TextBlock "hello"] 9 3) "hello"%string
              (uuid4 env) Hr Hp Hs eq_refl eq_refl) as (_ & Hlogs & _).
  vm_compute in Hlogs. exact Hlogs.
Defined.

(** ** The session table over the life of the process *)

Section Preserved.

(** A property of the session rows that every change a task commits keeps. *)
Variable P : list UserSession.t -> Prop.
Hypothesis P_change :
  forall d now t,
    P (user_sessions d) -> P (user_sessions (apply_op d (task_change now t d))).

Lemma run_task_preserves now t w :
  pending w = [] ->
  P (user_sessions (db w)) ->
  pending (snd (run_task now t w)) = []
  /\ P (user_sessions (db (snd (run_task now t w)))).
Proof.
  intros Hp HP. destruct (run_task_spec now t w) as (_ & Hpend & Hdb).
  split; [exact Hpend |].
  destruct (_ || _).
  - destruct Hdb as [-> _]. exact HP.
  - destruct Hdb as [-> _]. rewrite Hp. simpl. now apply P_change.
Qed.

Lemma run_tasks_preserve now ts :
  forall w,
    pending w = [] ->
    P (user_sessions (db w)) ->
    P (user_sessions (db (fold_left (fun w' t => snd (run_task now t w')) ts w))).
Proof.
  induction ts as [|t ts IH]; intros w Hp HP; simpl; [exact HP |].
  destruct (run_task_preserves now t w Hp HP) as [Hp' HP']. now apply IH.
Qed.

Lemma post_chat_preserves env request http w :
  P (user_sessions (db w)) ->
  P (user_sessions (db (snd (post_chat env request http w)))).
Proof.
  intros HP. unfold post_chat.
  pose proof (chat_with_claude_reads_only env request http
                (set_background_tasks [] (set_pending [] w))) as [Hdb Hp].
  destruct (chat_with_claude env request http _) as [[body | e] w1]; simpl in *.
  - rewrite run_tasks_spec. simpl. apply run_tasks_preserve; [exact Hp |].
    now rewrite Hdb.
  - destruct e; simpl; now rewrite Hdb.
Qed.

Lemma step_sessions w o :
  match o with
  | OpChat _ _ _ => True
  | _ => user_sessions (db (step w o)) = user_sessions (db w)
  end.
Proof.
  destruct o as [env request http | sid | sid limit | t0 now p | now | oracle]; simpl.
  - exact I.
  - unfold with_session, get_session_info, query_session, round_trip, get, ret, raise,
      mbind, M_bind, bind.
    destruct w as [rls d p lg bt sn [|[m|] rest]]; simpl; try reflexivity;
      destruct (select_session sid d); reflexivity.
  - unfold with_session, get_conversation_history, query_history, round_trip, get, ret,
      mbind, M_bind, bind.
    destruct w as [rls d p lg bt sn [|[m|] rest]]; reflexivity.
  - run_sweep. destruct w as [rls d q lg bt sn [|[m|] rest]]; reflexivity.
  - apply cleanup_old_data_frame.
  - reflexivity.
Qed.

Lemma step_preserves w o :
  P (user_sessions (db w)) -> P (user_sessions (db (step w o))).
Proof.
  intros HP. pose proof (step_sessions w o) as Hs.
  destruct o; try (rewrite Hs; exact HP).
  now apply post_chat_preserves.
Qed.

Lemma run_preserves ops :
  forall w, P (user_sessions (db w)) -> P (user_sessions (db (fold_left step ops w))).
Proof.
  induction ops as [|o ops IH]; intros w HP; simpl; [exact HP |].
  apply IH. now apply step_preserves.
Qed.

End Preserved.

Lemma update_first_uuids sid f rows :
  (forall r, UserSession.session_uuid (f r) = UserSession.session_uuid r) ->
  map UserSession.session_uuid (update_first sid f rows)
  = map UserSession.session_uuid rows.
Proof.
  intros Hf. induction rows as [|s rows IH]; simpl; [reflexivity |].
  destruct (String.eqb _ _); simpl; [now rewrite Hf | now rewrite IH].
Qed.

Lemma update_first_forall (Q : UserSession.t -> Prop) sid f rows :
  (forall r, Q r -> Q (f r)) ->
  Forall Q rows -> Forall Q (update_first sid f rows).
Proof.
  intros Hf. induction 1 as [|s rows Hs Hrows IH]; simpl; [constructor |].
  destruct (String.eqb _ _); constructor; auto.
Qed.

(** X9. Over any sequence of operations from a fresh process, the session
    table never holds two rows of one [session_uuid], and every row in it
    satisfies the CHECK constraints the table declares. *)
Theorem session_table_invariant (ops : list operation) :
  let d := db (fold_left step ops initial_world) in
  NoDup (map UserSession.session_uuid (user_sessions d))
  /\ Forall (fun s => user_session_checks s = true) (user_sessions d).
Proof.
  apply (run_preserves
           (fun rows =>
              NoDup (map UserSession.session_uuid rows)
              /\ Forall (fun s => user_session_checks s = true) rows)).
  - intros d now [sid um ar tu pt mu ok em et info | sid info] [Hnd Hck]; simpl.
    + split; assumption.
    + unfold session_change.
      destruct (select_session sid d) as [s |] eqn:Hsel; simpl.
      * split.
        -- now rewrite update_first_uuids.
        -- apply List.find_some in Hsel as [Hin _].
           rewrite List.Forall_forall in Hck. pose proof (Hck s Hin) as Hs.
           apply update_first_forall; [| now apply List.Forall_forall].
           intros r Hr. unfold user_session_checks in *. simpl.
           repeat (apply andb_prop in Hr as [Hr ?]).
           repeat (apply andb_prop in Hs as [Hs ?]).
           repeat (apply andb_true_intro; split); try assumption.
           apply Z.leb_le. apply Z.leb_le in Hs. lia.
      * split.
        -- rewrite map_app. simpl.
           apply NoDup_app. split; [exact Hnd | split; [| apply NoDup_singleton]].
           intros u Hu Hu'. apply list_elem_of_In in Hu, Hu'.
           destruct Hu' as [<- | []].
           apply List.in_map_iff in Hu as (r & Hr & Hin).
           pose proof (List.find_none _ _ Hsel r Hin) as Hne. simpl in Hne.
           apply String.eqb_neq in Hne. congruence.
        -- apply Forall_app. split; [exact Hck |]. repeat constructor.
  - simpl. split; constructor.
Qed.

(** ** Written, then read *)

Lemma find_app_new (sid : string) (rows : list UserSession.t) (s : UserSession.t) :
  List.find (fun r => String.eqb (UserSession.session_uuid r) sid) rows = None ->
  UserSession.session_uuid s = sid ->
  List.find (fun r => String.eqb (UserSession.session_uuid r) sid) (rows ++ [s])
  = Some s.
Proof.
  intros Hnone Hs. induction rows as [|r rows IH]; simpl in *.
  - now rewrite Hs, String.eqb_refl.
  - destruct (String.eqb (UserSession.session_uuid r) sid); [discriminate | now apply IH].
Qed.

(** X10. Once a session upsert has gone through, the session is known: a
    session-info request for that id, with the storage engine answering, is
    not a 404 but the row's data, under the id asked for, with
    [last_activity] at the time of the upsert and [total_messages] at 0 for
    a row just created, one more than before for a row that was there. *)
Theorem upsert_then_session_info (now : datetime) (session_id : string)
    (info : client_info) (w w2 : world)
    (Hfresh : pending w = [])
    (Hstorage : meets_fault 2 w = false)
    (Hdb : db w2 = db (snd (update_session_stats now session_id info w)))
    (Hquery : no_fault w2) :
  exists si,
    fst (get_session_info session_id w2) = Ok si
    /\ si_session_id si = session_id
    /\ si_last_activity si = now
    /\ si_total_messages si
       = match select_session session_id (db w) with
         | None => 0
         | Some s => UserSession.total_messages s + 1
         end.
Proof.
  assert (Hd : db w2 = apply_op (db w)
                         (session_change now session_id info
                            (select_session session_id (db w)))).
  { rewrite Hdb.
    destruct (run_task_spec now (UpdateSessionStatsTask session_id info) w)
      as (_ & _ & H).
    cbn [task_round_trips task_change] in H. rewrite Hstorage, Hfresh in H.
    cbn [app forallb orb fold_left] in H.
    rewrite session_change_accepted in H. cbn [andb negb] in H.
    destruct H as [H _]. exact H. }
  assert (Hrun : fst (get_session_info session_id w2)
                 = match select_session session_id (db w2) with
                   | None => Raise (HTTPException 404 (DetailText "Session not found"))
                   | Some s =>
                       Ok (mk_session_info (UserSession.session_uuid s)
                             (UserSession.created_at s) (UserSession.last_activity s)
                             (UserSession.total_messages s) (UserSession.total_tokens s)
                             (UserSession.avg_response_time s))
                   end).
  { unfold get_session_info, query_session, round_trip, get, ret, raise,
      mbind, M_bind, bind.
    unfold no_fault in Hquery.
    destruct w2 as [rls d p lg bt sn [|[m|] rest]]; simpl in *;
      try destruct Hquery; destruct (select_session session_id d); reflexivity. }
  rewrite Hrun, Hd. unfold session_change, select_session.
  destruct (List.find _ (user_sessions (db w))) as [s |] eqn:Hsel; simpl.
  - rewrite (update_first_find session_id _ _ s) by (reflexivity || exact Hsel).
    eexists. split; [reflexivity |]. simpl. repeat split.
    apply List.find_some in Hsel as [_ Heq]. now apply String.eqb_eq in Heq.
  - rewrite (find_app_new session_id _ (new_session now session_id info) Hsel eq_refl).
    eexists. split; [reflexivity |]. repeat split.
Qed.

Lemma upsert_then_session_info_witness :
  exists si,
    fst (get_session_info "s-1"
           (snd (update_session_stats 1000 "s-1" (get_client_info sample_http)
                   initial_world)))
    = Ok si
    /\ si_session_id si = "s-1"%string.
Proof.
  destruct (upsert_then_session_info 1000 "s-1"%string (get_client_info sample_http)
              initial_world
              (snd (update_session_stats 1000 "s-1" (get_client_info sample_http)
                      initial_world))
              eq_refl eq_refl eq_refl I) as (si & H1 & H2 & _).
  exists si. split; assumption.
Defined.

Lemma sql_limit_prefix {A} (n : Z) (l : list A) :
  exists rest,
    l = sql_limit n l ++ rest
    /\ (n < 0 \/ Z.of_nat (length l) <= n -> rest = [])
    /\ (0 <= n -> Z.of_nat (length (sql_limit n l)) <= n).
Proof.
  unfold sql_limit. destruct (Z.ltb_spec n 0) as [Hneg | Hpos].
  - exists []. rewrite app_nil_r.
    split; [reflexivity | split; [intros _; reflexivity | lia]].
  - exists (skipn (Z.to_nat n) l). rewrite firstn_skipn.
    split; [reflexivity | split].
    + intros [Hn | Hlen]; [lia |]. apply skipn_all2. lia.
    + intros _. rewrite length_firstn. lia.
Qed.



(** ** The two background loops, one turn at a time *)

Lemma filter_partition_length {A} (f : A -> bool) (l : list A) :
  (length (List.filter f l) + length (List.filter (fun x => negb (f x)) l)
   = length l)%nat.
Proof.
  induction l as [|x l IH]; simpl; [reflexivity |].
  destruct (f x); simpl; lia.
Qed.

Lemma filter_twice {A} (f : A -> bool) (l : list A) :
  List.filter f (List.filter f l) = List.filter f l.
Proof.
  induction l as [|x l IH]; simpl; [reflexivity |].
  destruct (f x) eqn:E; simpl; [rewrite E; now f_equal | exact IH].
Qed.

Lemma cleanup_old_data_run now w :
  fst (cleanup_old_data now w) = Ok tt
  /\ pending (snd (cleanup_old_data now w)) = pending w
  /\ rate_limit_storage (snd (cleanup_old_data now w)) = rate_limit_storage w
  /\ logger (snd (cleanup_old_data now w))
     = logger w
       ++ [if meets_fault 3 w
           then LogError "Failed to cleanup old data"
                  (match List.find (fun f => match f with Some _ => true | None => false end)
                           (faults w) with
                   | Some (Some msg) => msg
                   | _ => ""%string
                   end)
           else LogInfo "Cleaned up old metrics and old error logs"
                  [Z.of_nat (length (List.filter
                                       (fun m => SystemMetrics.timestamp m
                                                 <? now - timedelta_days 30)
                                       (system_metrics (db w))));
                   Z.of_nat (length (List.filter
                                       (fun e => ErrorLog.timestamp e
                                                 <? now - timedelta_days 30)
                                       (error_logs (db w))))]]
  /\ (meets_fault 3 w = true -> db (snd (cleanup_old_data now w)) = db w).
Proof.
  unfold meets_fault. run_sweep.
  destruct w as [rls d p lg bt sn [|[m1|] [|[m2|] [|[m3|] rest]]]]; simpl;
    repeat split; try discriminate; intros _; reflexivity.
Qed.

(** X13. One turn of the retention sweep never raises and leaves the
    caller's session alone. If one of its three round trips fails, the
    tables are as before and one error line is logged. Otherwise it logs
    the two counts, which are the numbers of metric rows and of error rows
    it removed, and a second sweep at the same time would remove nothing
    more. *)
Theorem sweep_report (now : datetime) (w : world) :
  let w' := snd (cleanup_old_data now w) in
  fst (cleanup_old_data now w) = Ok tt
  /\ pending w' = pending w
  /\ (if meets_fault 3 w
      then db w' = db w
           /\ exists cause,
               logger w' = logger w ++ [LogError "Failed to cleanup old data" cause]
      else logger w'
           = logger w
             ++ [LogInfo "Cleaned up old metrics and old error logs"
                   [Z.of_nat (length (system_metrics (db w)))
                    - Z.of_nat (length (system_metrics (db w')));
                    Z.of_nat (length (error_logs (db w)))
                    - Z.of_nat (length (error_logs (db w')))]]
           /\ forall w2,
               db w2 = db w' -> meets_fault 3 w2 = false ->
               db (snd (cleanup_old_data now w2)) = db w2).
Proof.
  intros w'. destruct (cleanup_old_data_run now w) as (Hok & Hp & _ & Hlog & Hfail).
  split; [exact Hok | split; [exact Hp |]].
  destruct (meets_fault 3 w) eqn:Hm.
  - split; [now apply Hfail | eexists; exact Hlog].
  - subst w'. rewrite Hlog, (cleanup_old_data_db now w Hm). simpl. split.
    + pose proof (filter_partition_length
                    (fun m => SystemMetrics.timestamp m <? now - timedelta_days 30)
                    (system_metrics (db w))) as H1.
      pose proof (filter_partition_length
                    (fun e => ErrorLog.timestamp e <? now - timedelta_days 30)
                    (error_logs (db w))) as H2.
      f_equal. f_equal. f_equal. f_equal; [lia | f_equal; lia].
    + intros w2 Hdb Hm2. rewrite (cleanup_old_data_db now w2 Hm2), Hdb. simpl.
      now rewrite !filter_twice.
Qed.


(** ** The request validator *)

Section ValidationFacts.

Variable isspace : Ascii.ascii -> bool.


Lemma append_cons c (a b : string) :
  String.append (String c a) b = String c (String.append a b).
Proof. reflexivity. Qed.

Lemma append_nil (b : string) : String.append EmptyString b = b.
Proof. reflexivity. Qed.

Lemma lstrip_split s :
  exists pre,
    s = String.append pre (lstrip isspace s)
    /\ all_space isspace pre = true
    /\ match first_char (lstrip isspace s) with
       | Some c => isspace c = false
       | None => True
       end.
Proof.
  induction s as [|c r IH]; simpl.
  - exists EmptyString. repeat split.
  - destruct (isspace c) eqn:E.
    + destruct IH as (pre & Hs & Hp & Hf). exists (String c pre).
      split; [rewrite append_cons; now f_equal | split; [simpl; now rewrite E | exact Hf]].
    + exists EmptyString. split; [reflexivity | split; [reflexivity | exact E]].
Qed.

Lemma rstrip_split s :
  exists post,
    s = String.append (rstrip isspace s) post
    /\ all_space isspace post = true
    /\ match last_char (rstrip isspace s) with
       | Some c => isspace c = false
       | None => True
       end.
Proof.
  induction s as [|c r IH]; simpl.
  - exists EmptyString. repeat split.
  - destruct IH as (post & Hs & Hp & Hl).
    destruct (rstrip isspace r) as [|c' r'] eqn:Er.
    + simpl in Hs. destruct (isspace c) eqn:E.
      * exists (String c post). rewrite append_nil in *.
        split; [now f_equal | split; [simpl; now rewrite E | exact I]].
      * exists post. rewrite append_cons, append_nil in *.
        split; [now f_equal | split; [exact Hp | exact E]].
    + exists post. rewrite append_cons.
      split; [now f_equal | split; [exact Hp | exact Hl]].
Qed.

Lemma rstrip_first s :
  rstrip isspace s = EmptyString \/ first_char (rstrip isspace s) = first_char s.
Proof.
  destruct s as [|c r]; simpl; [now left |].
  destruct (rstrip isspace r); [destruct (isspace c); [now left | now right] | now right].
Qed.

Lemma lstrip_fixed s :
  match first_char s with Some c => isspace c = false | None => True end ->
  lstrip isspace s = s.
Proof. destruct s as [|c r]; simpl; [reflexivity | intros ->; reflexivity]. Qed.

Lemma rstrip_fixed s :
  match last_char s with Some c => isspace c = false | None => True end ->
  rstrip isspace s = s.
Proof.
  induction s as [|c r IH]; simpl; [reflexivity |].
  destruct r as [|c' r'].
  - simpl. intros ->. reflexivity.
  - intros H. rewrite (IH H). reflexivity.
Qed.

Lemma rstrip_all_space s : all_space isspace s = true -> rstrip isspace s = EmptyString.
Proof.
  induction s as [|c r IH]; simpl; [reflexivity |].
  intros H. apply andb_prop in H as [Hc Hr]. now rewrite (IH Hr), Hc.
Qed.

Lemma lstrip_all_space s : all_space isspace s = true -> lstrip isspace s = EmptyString.
Proof.
  induction s as [|c r IH]; simpl; [reflexivity |].
  intros H. apply andb_prop in H as [Hc Hr]. now rewrite Hc, (IH Hr).
Qed.

Lemma all_space_append a b :
  all_space isspace (String.append a b) = all_space isspace a && all_space isspace b.
Proof.
  induction a as [|c a IH]; [reflexivity |].
  rewrite append_cons. simpl. now rewrite IH, andb_assoc.
Qed.

Lemma append_length a b :
  String.length (String.append a b) = (String.length a + String.length b)%nat.
Proof.
  induction a as [|c a IH]; [reflexivity |].
  rewrite append_cons. simpl. now rewrite IH.
Qed.

(** X15. The validator of the message field rejects exactly the messages
    made of whitespace only (the empty one among them). A message it
    accepts comes back as the original less a run of whitespace at each
    end: not empty, no longer than the original, with a first and a last
    character that are not whitespace, and unchanged by a second pass of
    the validator. *)
Theorem validate_message_normalises (v : string) :
  match validate_message isspace v with
  | Raise _ => all_space isspace v = true
  | Ok m =>
      all_space isspace v = false
      /\ m <> EmptyString
      /\ (exists pre post,
             v = String.append pre (String.append m post)
             /\ all_space isspace pre = true /\ all_space isspace post = true)
      /\ (exists c, first_char m = Some c /\ isspace c = false)
      /\ (exists c, last_char m = Some c /\ isspace c = false)
      /\ (String.length m <= String.length v)%nat
      /\ validate_message isspace m = Ok m
  end.
Proof.
  unfold validate_message, strip.
  destruct (lstrip_split v) as (pre & Hv & Hpre & Hfirst).
  destruct (rstrip_split (lstrip isspace v)) as (post & Hl & Hpost & Hlast).
  destruct (String.eqb_spec (rstrip isspace (lstrip isspace v)) "") as [E | E].
  - rewrite Hv, all_space_append, Hpre. simpl.
    rewrite Hl, E. simpl. exact Hpost.
  - set (m := rstrip isspace (lstrip isspace v)) in *.
    assert (Hf : exists c, first_char m = Some c /\ isspace c = false).
    { destruct (rstrip_first (lstrip isspace v)) as [H | H]; [contradiction |].
      fold m in H. rewrite H. destruct (first_char (lstrip isspace v)) as [c |] eqn:Ec.
      - now exists c.
      - destruct (lstrip isspace v); [| discriminate]. now destruct E. }
    assert (Hla : exists c, last_char m = Some c /\ isspace c = false).
    { destruct (last_char m) as [c |] eqn:Ec; [now exists c |].
      destruct m as [|c r]; [now destruct E |].
      simpl in Ec. destruct r; [discriminate |].
      exfalso. clear -Ec. revert Ec. generalize a. induction r as [|c' r IH]; intros a0 H.
      - discriminate.
      - simpl in H. apply (IH c'). exact H. }
    assert (Hfix : rstrip isspace (lstrip isspace m) = m).
    { destruct Hf as (c & Hc & Hsp). destruct Hla as (c' & Hc' & Hsp').
      rewrite lstrip_fixed by now rewrite Hc.
      apply rstrip_fixed. now rewrite Hc'. }
    repeat split.
    + destruct (all_space isspace v) eqn:Ea; [| reflexivity].
      exfalso. apply E. unfold m. rewrite (lstrip_all_space v Ea). reflexivity.
    + exact E.
    + exists pre, post. repeat split; try assumption.
      rewrite <- Hl. exact Hv.
    + exact Hf.
    + exact Hla.
    + rewrite Hv, Hl. fold m. rewrite !append_length. lia.
    + rewrite Hfix. destruct (String.eqb_spec m ""); [contradiction | reflexivity].
Qed.

End ValidationFacts.

(** ** Startup *)

Lemma configured_gate key :
  match key with
  | None => true
  | Some api_key => String.eqb api_key "" || String.eqb api_key api_key_placeholder
  end = false <-> configured key.
Proof.
  unfold configured. destruct key as [k|].
  - rewrite orb_false_iff, !String.eqb_neq. split.
    + intros [H1 H2]. exists k. auto.
    + intros (k' & [= <-] & H1 & H2). auto.
  - split; [discriminate | intros (k & [=] & _)].
Qed.

Ltac run_startup :=
  unfold lifespan_startup, messages_create, logger_log, try_except, modify, get,
    ret, raise, mbind, M_bind, bind.

(** X16. Startup goes through three gates in order: the database
    initialisation, the API key, and one test call to the provider. It
    succeeds only when all three pass, and then exactly one call was sent,
    with [max_tokens] 10 and the single user message "test", and both
    background loops were created. When the database initialisation fails,
    or the key is unset, empty or the placeholder, startup raises without
    sending anything to the provider; a failing test call raises the
    provider's own exception. Every failure ends the log with an error
    line, and startup never touches the tables or the rate limiter. *)
Theorem startup_gate (env : environment) (init_database : result unit)
    (key : option string) (w : world) :
  let r := lifespan_startup env init_database key w in
  db (snd r) = db w
  /\ pending (snd r) = pending w
  /\ faults (snd r) = faults w
  /\ rate_limit_storage (snd r) = rate_limit_storage w
  /\ match fst r with
     | Ok loops =>
         init_database = Ok tt
         /\ configured key
         /\ (exists c answer,
               sent (snd r) = sent w ++ [c]
               /\ anthropic_client env c = Ok answer
               /\ call_max_tokens c = 10
               /\ call_messages c = [mk_message user "test"])
         /\ loops = [CollectSystemMetricsLoop; CleanupOldDataLoop]
         /\ exists lines,
              logger (snd r)
              = logger w ++ lines ++ [LogInfo "Application startup completed" []]
     | Raise e =>
         (exists lines text cause,
            logger (snd r) = logger w ++ lines ++ [LogError text cause])
         /\ (init_database = Raise e /\ sent (snd r) = sent w
             \/ init_database = Ok tt /\ ~ configured key
                /\ e = Exception "Anthropic API key not configured"
                /\ sent (snd r) = sent w
             \/ init_database = Ok tt /\ configured key
                /\ exists c, sent (snd r) = sent w ++ [c]
                             /\ anthropic_client env c = Raise e)
     end.
Proof.
  pose proof (configured_gate key) as Hkey.
  destruct w as [rls d p lg bt sn fs].
  destruct init_database as [[]|e0].
  - destruct (match key with
              | None => true
              | Some api_key =>
                  String.eqb api_key "" || String.eqb api_key api_key_placeholder
              end) eqn:Hgate.
    + assert (~ configured key) as Hn by (intros H; apply Hkey in H; discriminate).
      run_startup. simpl. rewrite Hgate. simpl.
      repeat (split; [reflexivity|]). split.
      * exists [LogInfo "Starting Claude AI Agent application..." [];
                LogInfo "Database initialized successfully" []],
          "Anthropic API key not configured"%string, ""%string.
        rewrite <- ?app_assoc. reflexivity.
      * right; left. auto.
    + assert (configured key) as Hc by (apply Hkey; reflexivity).
      run_startup. simpl. rewrite Hgate. simpl.
      destruct (anthropic_client env _) as [answer|e] eqn:Hcall; simpl.
      * repeat (split; [reflexivity|]). split; [exact Hc|].
        split; [|split; [reflexivity|]].
        -- eexists _, answer. split; [reflexivity|]. split; [exact Hcall|]. split; reflexivity.
        -- exists [LogInfo "Starting Claude AI Agent application..." [];
                   LogInfo "Database initialized successfully" [];
                   LogInfo "Anthropic API connection verified" []].
           rewrite <- ?app_assoc. reflexivity.
      * repeat (split; [reflexivity|]). split.
        -- exists [LogInfo "Starting Claude AI Agent application..." [];
                   LogInfo "Database initialized successfully" []],
             "Anthropic API initialization failed"%string, (str e).
           rewrite <- ?app_assoc. reflexivity.
        -- right; right. split; [reflexivity|]. split; [exact Hc|].
           eexists. split; [reflexivity | exact Hcall].
  - run_startup. simpl.
    repeat (split; [reflexivity|]). split.
    + exists [LogInfo "Starting Claude AI Agent application..." []],
        "Database initialization failed"%string, (str e0).
      rewrite <- ?app_assoc. reflexivity.
    + left. auto.
Qed.

(** ** The health endpoint *)

Lemma configured_flag key :
  match key with
  | None => false
  | Some k => if String.eqb k "" then false else negb (String.eqb k api_key_placeholder)
  end = true <-> configured key.
Proof.
  unfold configured. destruct key as [k|].
  - destruct (String.eqb k "") eqn:H1.
    + apply String.eqb_eq in H1. split; [discriminate|].
      intros (k' & [= <-] & H & _). contradiction.
    + apply String.eqb_neq in H1. rewrite negb_true_iff, String.eqb_neq. split.
      * intros H2. exists k. auto.
      * intros (k' & [= <-] & _ & H2). exact H2.
  - split; [discriminate | intros (k & [=] & _)].
Qed.

Ltac run_health :=
  unfold health_check, with_session, logger_log, round_trip, try_except, modify,
    get, ret, raise, mbind, M_bind, bind.

(** X17. The health endpoint makes exactly one round trip to the storage
    engine and writes nothing. When the system readings are available it
    answers with status "healthy" whether or not the storage engine
    answered: a storage failure only shows in [database_status], which is
    "healthy" exactly when the round trip succeeded and "error: " followed
    by the failure text otherwise. [api_configured] is true exactly for a
    key that would pass the startup gate, and the uptime is the elapsed
    time truncated to whole seconds. When a system reading fails the
    answer is a 500 naming the failure, and one error line is logged. *)
Theorem health_check_report (key : option string) (app_start_time now : datetime)
    (psutil : result (Q * Q * Q)) (w : world) :
  let r := health_check key app_start_time now psutil w in
  db (snd r) = db w
  /\ pending (snd r) = pending w
  /\ sent (snd r) = sent w
  /\ faults (snd r) = tail (faults w)
  /\ match psutil with
     | Ok (cpu, memory, disk) =>
         exists h,
           fst r = Ok h
           /\ logger (snd r) = logger w
           /\ h_status h = "healthy"%string
           /\ h_database_status h
              = match faults w with
                | Some msg :: _ => String.append "error: " msg
                | _ => "healthy"%string
                end
           /\ (h_database_status h = "healthy"%string <-> no_fault w)
           /\ (h_api_configured h = true <-> configured key)
           /\ (h_cpu_percent h, h_memory_percent h, h_disk_percent h)
              = (cpu, memory, disk)
           /\ h_timestamp h = now
           /\ Z.abs (now - app_start_time) - 1000000
              < Z.abs (h_uptime_seconds h) * 1000000
              <= Z.abs (now - app_start_time)
     | Raise e =>
         fst r = Raise (HTTPException 500
                          (DetailText (String.append "Health check failed: " (str e))))
         /\ logger (snd r) = logger w ++ [LogError "Health check failed" (str e)]
     end.
Proof.
  pose proof (configured_flag key) as Hkey.
  assert (Z.abs (now - app_start_time) - 1000000
          < Z.abs (Z.quot (now - app_start_time) 1000000) * 1000000
          <= Z.abs (now - app_start_time)) as Hup.
  { rewrite <- Z.quot_abs by lia. change (Z.abs 1000000) with 1000000.
    pose proof (Z.quot_rem' (Z.abs (now - app_start_time)) 1000000) as E.
    pose proof (Z.rem_bound_pos (Z.abs (now - app_start_time)) 1000000) as B.
    lia. }
  destruct w as [rls d p lg bt sn fs].
  destruct psutil as [[[cpu memory] disk]|e]; destruct fs as [|[msg|] fs];
    run_health; simpl; repeat (split; [reflexivity|]);
    try (split; reflexivity).
  all: eexists; split; [reflexivity|]; simpl;
    repeat (split; [reflexivity|]).
  all: split; [|split; [exact Hkey|]; split; [reflexivity|]; split; [reflexivity|exact Hup]].
  all: unfold no_fault; simpl; try tauto.
  split; [discriminate | contradiction].
Qed.

(** ** The statistics endpoint *)

Lemma insert_metric_desc_perm m l : Permutation (insert_metric_desc m l) (m :: l).
Proof.
  induction l as [|x l IH]; simpl; [reflexivity |].
  destruct (_ <? _); [reflexivity |].
  rewrite IH. apply perm_swap.
Qed.

Lemma order_metrics_desc_perm l : Permutation (order_metrics_desc l) l.
Proof.
  induction l as [|x l IH]; simpl; [reflexivity |].
  rewrite insert_metric_desc_perm. now constructor.
Qed.

Lemma insert_metric_desc_sorted m l :
  StronglySorted newest_metric_first l ->
  StronglySorted newest_metric_first (insert_metric_desc m l).
Proof.
  induction 1 as [|x l Hs IH Hx]; simpl.
  - repeat constructor.
  - destruct (Z.ltb_spec (SystemMetrics.timestamp x) (SystemMetrics.timestamp m)).
    + constructor; [now constructor |].
      constructor; [unfold newest_metric_first; lia |].
      eapply List.Forall_impl; [| exact Hx]. unfold newest_metric_first. intros a Ha. lia.
    + constructor; [exact IH |].
      apply (Permutation_Forall (Permutation_sym (insert_metric_desc_perm m l))).
      constructor; [unfold newest_metric_first; lia | exact Hx].
Qed.

Lemma order_metrics_desc_sorted l :
  StronglySorted newest_metric_first (order_metrics_desc l).
Proof.
  induction l as [|x l IH]; simpl; [constructor | now apply insert_metric_desc_sorted].
Qed.

(** The percentage of line 525, both operations rounded. *)
Lemma success_rate_bounds (successful total : Z) :
  0 <= successful <= total ->
  let rate := float_mul (int_truediv successful (Z.max total 1)) (float_of_int 100) in
  (0 <= rate)%Q /\ (rate <= 100)%Q
  /\ (successful = 0 -> (rate == 0)%Q)
  /\ (0 < total -> successful = total -> (rate == 100)%Q).
Proof.
  intros H rate. subst rate. unfold float_mul, int_truediv.
  assert (H100 : (float_of_int 100 == 100)%Q) by (vm_compute; reflexivity).
  assert (R0 : round_binary64 0 = 0%Q) by reflexivity.
  assert (R1 : (round_binary64 1 == 1)%Q) by (vm_compute; reflexivity).
  assert (R100 : (round_binary64 100 == 100)%Q) by (vm_compute; reflexivity).
  set (m := Z.max total 1).
  assert (Hm : (0 < inject_Z m)%Q).
  { change 0%Q with (inject_Z 0). rewrite <- Zlt_Qlt. subst m. lia. }
  assert (Hs : (0 <= inject_Z successful)%Q).
  { change 0%Q with (inject_Z 0). rewrite <- Zle_Qle. lia. }
  assert (Hsm : (inject_Z successful <= inject_Z m)%Q).
  { rewrite <- Zle_Qle. subst m. lia. }
  set (q := (inject_Z successful / inject_Z m)%Q).
  assert (Hq0 : (0 <= q)%Q).
  { subst q. apply Qle_shift_div_l; [exact Hm | lra]. }
  assert (Hq1 : (q <= 1)%Q).
  { subst q. apply Qle_shift_div_r; [exact Hm | lra]. }
  assert (Hr0 : (0 <= round_binary64 q)%Q).
  { rewrite <- R0. now apply round_binary64_mono. }
  assert (Hr1 : (round_binary64 q <= 1)%Q).
  { rewrite <- R1. now apply round_binary64_mono. }
  split; [| split; [| split]].
  - rewrite <- R0. apply round_binary64_mono. nra.
  - rewrite <- R100. apply round_binary64_mono. nra.
  - intros ->.
    assert (q == 0)%Q as Eq by (subst q; unfold Qdiv; ring).
    rewrite (round_binary64_0 q Eq).
    rewrite round_binary64_0 by ring. reflexivity.
  - intros Ht Est.
    assert (m = total) as Em by (subst m; lia).
    clearbody m. subst m successful.
    assert (q == 1)%Q as Eq.
    { subst q. field. intros E. lra. }
    rewrite <- R100. apply round_binary64_comp.
    rewrite (round_binary64_comp _ _ Eq), R1, H100. reflexivity.
Qed.

Section StatsFacts.

Variable active_sessions_of : SystemMetrics.t -> Z.

Ltac run_stats :=
  unfold get_system_stats, with_session, db_query, logger_log, round_trip,
    try_except, modify, get, ret, raise, mbind, M_bind, bind.


End StatsFacts.
